(** * The Resend mail client of tools/mailer (resend.go)

    A shallow embedding of [ResendClient.Send], the unexported [send] that
    builds the JSON payload and talks to the Resend HTTP API, and
    [prepareAttachment], together with the properties the mailer
    specification states about them.

    Go strings and byte slices are both sequences of bytes; they are
    modelled by [string] (a list of 8-bit [ascii] characters).  A Go
    [error] is modelled by its message: [None] is [nil]. *)

From Stdlib Require Import ZArith Ascii String DecimalString.
From stdpp Require Import gmap strings list fin_maps.

Local Open Scope Z_scope.

(** ** Errors and fallible results *)

Definition error : Type := option string.

Inductive result (A : Type) : Type :=
| Ok (a : A)
| Err (e : string).
Arguments Ok {A} a.
Arguments Err {A} e.

(** The two shapes of [fmt.Errorf] with a wrapped error that resend.go
    uses: ["<what>: %w"] and ["<what> %s: %w"]. *)
Definition wrapf (what : string) (err : string) : string :=
  what +:+ ": " +:+ err.

Definition wrapNamedf (what name err : string) : string :=
  what +:+ " " +:+ name +:+ ": " +:+ err.

(** ** Strings *)

(** [strings.Contains] as a proposition. *)
Definition Contains (s sub : string) : Prop :=
  exists pre post, s = pre +:+ sub +:+ post.

(** Number of occurrences of the byte [c] in [s]. *)
Fixpoint countByte (c : ascii) (s : string) : nat :=
  match s with
  | EmptyString => 0%nat
  | String a s' => ((if Ascii.eqb a c then 1 else 0) + countByte c s')%nat
  end.

(** [strings.Split(s, sep)] for a one-byte separator, which is how [send]
    calls it (["@"]).  The result always has at least one element. *)
Fixpoint Split (s : string) (sep : ascii) : list string :=
  match s with
  | EmptyString => [EmptyString]
  | String a s' =>
      if Ascii.eqb a sep then EmptyString :: Split s' sep
      else match Split s' sep with
           | part :: parts => String a part :: parts
           | [] => [String a EmptyString]
           end
  end.

(** ASCII lower-casing of one byte. *)
Definition toLower (a : ascii) : ascii :=
  let n := N_of_ascii a in
  if ((65 <=? n) && (n <=? 90))%N then ascii_of_N (n + 32) else a.

(** [strings.EqualFold(s, t)] for a right-hand side [t] made of ASCII bytes,
    which is how [send] calls it (["Message-ID"]).  Go compares rune by rune
    under simple Unicode case folding.  An ASCII byte of [s] matches when
    the lower-cased bytes agree.  The only runes outside ASCII whose folding
    orbit contains an ASCII letter are U+017F (long s, UTF-8 C5 BF), which
    folds to [s], and U+212A (Kelvin sign, UTF-8 E2 84 AA), which folds to
    [k]; every other non-ASCII or invalid sequence of [s] differs from any
    ASCII rune of [t]. *)
Fixpoint EqualFold (s t : string) : bool :=
  match t with
  | EmptyString => match s with EmptyString => true | _ => false end
  | String c t' =>
      match s with
      | EmptyString => false
      | String a s1 =>
          if (N_of_ascii a <? 128)%N then
            Ascii.eqb (toLower a) (toLower c) && EqualFold s1 t'
          else
            match s1 with
            | String b s2 =>
                if Ascii.eqb a "197" && Ascii.eqb b "191" then
                  Ascii.eqb (toLower c) "s" && EqualFold s2 t'
                else
                  match s2 with
                  | String d s3 =>
                      if Ascii.eqb a "226" && Ascii.eqb b "132"
                         && Ascii.eqb d "170"
                      then Ascii.eqb (toLower c) "k" && EqualFold s3 t'
                      else false
                  | EmptyString => false
                  end
            | EmptyString => false
            end
      end
  end.

(** The [%d] verb of [fmt] on an [int]. *)
Definition formatInt (n : Z) : string :=
  NilZero.string_of_int (Z.to_int n).

(** ** Standard base64 ([base64.StdEncoding], RFC 4648 with padding)

    Go regroups every three input bytes into four six-bit indices
    ([val>>18&0x3F], [val>>12&0x3F], [val>>6&0x3F], [val&0x3F]) into the
    alphabet below.  Here the bytes are taken apart into their bits
    ([Ascii b0 .. b7], least significant bit first) and the same bits are
    regrouped, most significant first. *)

Definition encodeStd : string :=
  "ABCDEFGHIJKLMNOPQRSTUVWXYZabcdefghijklmnopqrstuvwxyz0123456789+/".

Definition padChar : ascii := "="%char.

Definition sextet : Type := (bool * bool * bool * bool * bool * bool)%type.

Definition bit (b : bool) (weight : nat) : nat := if b then weight else 0%nat.

(** The index a sextet denotes; [h5] is the most significant bit. *)
Definition sextetIndex (x : sextet) : nat :=
  let '(h5, h4, h3, h2, h1, h0) := x in
  (bit h5 32 + bit h4 16 + bit h3 8 + bit h2 4 + bit h1 2 + bit h0 1)%nat.

Definition indexSextet (i : nat) : sextet :=
  (Nat.testbit i 5, Nat.testbit i 4, Nat.testbit i 3,
   Nat.testbit i 2, Nat.testbit i 1, Nat.testbit i 0).

Definition encodeSextet (x : sextet) : ascii :=
  match String.get (sextetIndex x) encodeStd with
  | Some c => c
  | None => padChar
  end.

Fixpoint alphabetIndex (c : ascii) (alphabet : string) : option nat :=
  match alphabet with
  | EmptyString => None
  | String a rest =>
      if Ascii.eqb a c then Some 0%nat else S <$> alphabetIndex c rest
  end.

Definition decodeSextet (c : ascii) : option sextet :=
  indexSextet <$> alphabetIndex c encodeStd.

(** [StdEncoding.EncodeToString]. *)
Fixpoint base64Encode (src : string) : string :=
  match src with
  | EmptyString => EmptyString
  | String (Ascii a0 a1 a2 a3 a4 a5 a6 a7) EmptyString =>
      String (encodeSextet (a7, a6, a5, a4, a3, a2))
        (String (encodeSextet (a1, a0, false, false, false, false))
           (String padChar (String padChar EmptyString)))
  | String (Ascii a0 a1 a2 a3 a4 a5 a6 a7)
      (String (Ascii b0 b1 b2 b3 b4 b5 b6 b7) EmptyString) =>
      String (encodeSextet (a7, a6, a5, a4, a3, a2))
        (String (encodeSextet (a1, a0, b7, b6, b5, b4))
           (String (encodeSextet (b3, b2, b1, b0, false, false))
              (String padChar EmptyString)))
  | String (Ascii a0 a1 a2 a3 a4 a5 a6 a7)
      (String (Ascii b0 b1 b2 b3 b4 b5 b6 b7)
         (String (Ascii c0 c1 c2 c3 c4 c5 c6 c7) rest)) =>
      String (encodeSextet (a7, a6, a5, a4, a3, a2))
        (String (encodeSextet (a1, a0, b7, b6, b5, b4))
           (String (encodeSextet (b3, b2, b1, b0, c7, c6))
              (String (encodeSextet (c5, c4, c3, c2, c1, c0))
                 (base64Encode rest))))
  end.

(** [StdEncoding.DecodeString] on input without line breaks: groups of four
    characters, padding only in the last group, every other character in the
    alphabet.  As in Go's non-strict mode the unused low bits of a padded
    group are not inspected. *)
Fixpoint base64Decode (s : string) : option string :=
  match s with
  | EmptyString => Some EmptyString
  | String c1 (String c2 (String c3 (String c4 rest))) =>
      match decodeSextet c1, decodeSextet c2 with
      | Some (a7, a6, a5, a4, a3, a2), Some (a1, a0, b7, b6, b5, b4) =>
          let first := Ascii a0 a1 a2 a3 a4 a5 a6 a7 in
          if Ascii.eqb c4 padChar then
            match rest with
            | EmptyString =>
                if Ascii.eqb c3 padChar then Some (String first EmptyString)
                else
                  match decodeSextet c3 with
                  | Some (b3, b2, b1, b0, _, _) =>
                      Some (String first
                              (String (Ascii b0 b1 b2 b3 b4 b5 b6 b7)
                                 EmptyString))
                  | None => None
                  end
            | String _ _ => None
            end
          else
            match decodeSextet c3, decodeSextet c4, base64Decode rest with
            | Some (b3, b2, b1, b0, c7, c6),
              Some (c5, c4', c3', c2', c1', c0), Some tail =>
                Some (String first
                        (String (Ascii b0 b1 b2 b3 b4 b5 b6 b7)
                           (String (Ascii c0 c1' c2' c3' c4' c5 c6 c7) tail)))
            | _, _, _ => None
            end
      | _, _ => None
      end
  | _ => None
  end.

(** ** More vocabulary on strings *)

(** Every byte of [s] satisfies [test]. *)
Fixpoint allBytes (test : ascii -> bool) (s : string) : bool :=
  match s with
  | EmptyString => true
  | String a s' => test a && allBytes test s'
  end.

(** The bytes below 128. *)
Definition isASCII (a : ascii) : bool := (N_of_ascii a <? 128)%N.

(** [s] with its ASCII upper-case letters lowered. *)
Fixpoint lowerASCII (s : string) : string :=
  match s with
  | EmptyString => EmptyString
  | String a s' => String (toLower a) (lowerASCII s')
  end.

(** A character of the standard base64 alphabet, or the padding. *)
Definition isBase64Char (c : ascii) : bool :=
  match alphabetIndex c encodeStd with
  | Some _ => true
  | None => Ascii.eqb c padChar
  end.

(** ** The message model *)

(** [mail.Address] of the Go standard library. *)
Record mail_Address : Type := {
  Name : string;
  Address : string
}.

(** An [io.Reader], seen as what reading it to the end will deliver: the
    bytes that arrive before the stream ends and the error that ends it
    ([None] for a clean end of file). *)
Record Reader : Type := {
  delivered : string;
  failure : error
}.

(** [io.ReadAll]: the bytes read so far come back even when reading fails. *)
Definition ReadAll (r : Reader) : string * error := (delivered r, failure r).

(** [mailer.Message], with the fields [send] reads.  [Headers] is a Go map
    whose iteration order cannot be observed by [send] and is a finite map;
    the two attachment maps are given as their entries in the order the
    [range] statement visits them, which is the order [send] appends in. *)
Record Message : Type := {
  From : mail_Address;
  To : list mail_Address;
  Cc : list mail_Address;
  Bcc : list mail_Address;
  Subject : string;
  HTML : string;
  Text : string;
  Headers : gmap string string;
  Attachments : list (string * Reader);
  InlineAttachments : list (string * Reader)
}.

(** [resendAttachment]; the fields carry their JSON names. *)
Record resendAttachment : Type := {
  filename : string;
  content : string;
  content_type : string
}.

(** [resendPayload]; the fields carry their JSON names.  A nil slice is the
    empty list; the nil header map is [None]. *)
Record resendPayload : Type := {
  from : string;
  to : list string;
  cc : list string;
  bcc : list string;
  subject : string;
  html : string;
  text : string;
  headers : option (gmap string string);
  attachments : list resendAttachment
}.

(** [resendErrorResponse]. *)
Record resendErrorResponse : Type := {
  statusCode : Z;
  message : string;
  name : string
}.

(** The part of [http.Request] that [send] fills in. *)
Record Request : Type := {
  Method : string;
  URL : string;
  Header : list (string * string);
  RequestBody : string
}.

(** The part of [http.Response] that [send] reads. *)
Record Response : Type := {
  StatusCode : Z;
  Body : Reader
}.

Definition resendAPIEndpoint : string := "https://api.resend.com/emails".

(** ** The send hook *)

(** [SendEvent]: wraps the message of one [Send] call. *)
Record SendEvent : Type := {
  EventMessage : Message
}.

(** Modelled from the spec: the generic hook library (tools/hook) is not
    part of the sources at hand.  Following the specification, each
    observer, given the event, either returns directly or forwards the
    (possibly mutated) event to the rest of the chain and goes on with what
    the chain returned.  [Return err] returns without forwarding; [Next e k]
    forwards [e] and continues as [k] on the result of the rest of the
    chain. *)
Inductive Action : Type :=
| Return (err : error)
| Next (e : SendEvent) (k : error -> Action).

Definition Observer : Type := SendEvent -> Action.

(** Modelled from the spec: the hook of tools/hook, as the ordered list of
    its registered observers. *)
Record Hook : Type := {
  handlers : list Observer
}.

(** Modelled from the spec: registration of an observer (tools/hook);
    it appends, so that observers run in registration order. *)
Definition Register (h : Hook) (o : Observer) : Hook :=
  {| handlers := handlers h ++ [o] |}.

(** An observer that hands the event mutated by [f] to the rest of the chain
    and returns whatever the chain returns. *)
Definition forwarding (f : SendEvent -> SendEvent) : Observer :=
  fun e => Next (f e) Return.

(** [ResendClient]. *)
Record ResendClient : Type := {
  onSend : option Hook;
  APIKey : string
}.

(** [OnSend]: creates the hook on first use; returns the client as it is
    afterwards and the hook. *)
Definition OnSend (c : ResendClient) : ResendClient * Hook :=
  match onSend c with
  | None =>
      let h := {| handlers := [] |} in
      ({| onSend := Some h; APIKey := APIKey c |}, h)
  | Some h => (c, h)
  end.

(** ** What the client relies on

    Functions of the standard library and of sibling files that [send]
    calls and whose code is not at hand, and the outside world.  The
    properties below hold for every implementation of them. *)
Class Collaborators : Type := {
  (** state of the pseudo-random source behind [security.PseudorandomString] *)
  RandState : Type;
  (** [security.PseudorandomString(length)] *)
  PseudorandomString : nat -> RandState -> string * RandState;
  (** [mail.Address.String] *)
  addressString : mail_Address -> string;
  (** [html2Text] *)
  html2Text : string -> result string;
  (** [detectReaderMimeType]: the reader to go on with and the MIME type *)
  detectReaderMimeType : Reader -> result (Reader * string);
  (** [json.Marshal] on a [resendPayload] *)
  jsonMarshal : resendPayload -> result string;
  (** [json.Unmarshal] into a [resendErrorResponse]; [None] is a decoding
      error *)
  jsonUnmarshal : string -> option resendErrorResponse;
  (** [http.Client.Do]: the answer of the network to a request, given the
      requests issued before *)
  clientDo : list Request -> Request -> result Response
}.

(** ** The client *)

Section Client.
Context `{Collaborators}.

(** What [send] can change: the requests that went out on the network, in
    order, and the state of the pseudo-random source. *)
Record World : Type := {
  requests : list Request;
  rand : RandState
}.

(** Modelled from the spec: [Trigger] of the hook library (tools/hook) runs
    the observers in registration order around the terminal function; an
    observer that does not forward skips the rest of the chain and the
    terminal function, and its result is the result of the chain. *)
Fixpoint runAction (a : Action)
    (next : SendEvent -> World -> error * World) (w : World) : error * World :=
  match a with
  | Return err => (err, w)
  | Next e k => let (err, w') := next e w in runAction (k err) next w'
  end.

Fixpoint compose (observers : list Observer)
    (terminal : SendEvent -> World -> error * World)
    (e : SendEvent) (w : World) : error * World :=
  match observers with
  | [] => terminal e w
  | o :: rest => runAction (o e) (compose rest terminal) w
  end.

Definition Trigger (h : Hook) (e : SendEvent)
    (terminal : SendEvent -> World -> error * World) (w : World)
    : error * World :=
  compose (handlers h) terminal e w.

(** Modelled from the spec: [addressesToStrings] (mailer.go) renders each
    address with its name when a name is present, else as the bare
    address. *)
Definition addressesToStrings (addresses : list mail_Address)
    (withName : bool) : list string :=
  map (fun a => if withName && negb (String.eqb (Name a) "")
                then addressString a else Address a) addresses.

(** Lines 89-97: the text content. *)
Definition textContent (m : Message) : string :=
  if String.eqb (Text m) "" then
    match html2Text (HTML m) with
    | Ok plain => plain
    | Err _ => ""
    end
  else Text m.

(** Lines 113-118: the loop over the caller's headers. *)
Definition copyHeaders (hs : gmap string string) : bool * gmap string string :=
  map_fold (fun k v acc =>
              ((if EqualFold k "Message-ID" then true else fst acc),
               <[k:=v]> (snd acc)))
           (false, ∅) hs.

(** [fmt.Sprintf("<%s@%s>", token, domain)]. *)
Definition formatMessageId (token domain : string) : string :=
  "<" +:+ token +:+ "@" +:+ domain +:+ ">".

(** Lines 109-129: the custom headers and the default message id. *)
Definition customHeaders (m : Message) (r : RandState)
    : option (gmap string string) * RandState :=
  if (0 <? size (Headers m))%nat then
    let (hasMessageId, out) := copyHeaders (Headers m) in
    if negb hasMessageId then
      let fromParts := Split (Address (From m)) "@" in
      if (length fromParts =? 2)%nat then
        let (token, r') := PseudorandomString 15 r in
        (Some (<["Message-ID" :=
                  formatMessageId token (default "" (fromParts !! 1%nat))]> out),
         r')
      else (Some out, r)
    else (Some out, r)
  else (None, r).

(** [prepareAttachment]. *)
Definition prepareAttachment (name : string) (data : Reader)
    : result resendAttachment :=
  match detectReaderMimeType data with
  | Err err => Err err
  | Ok (r, mimeType) =>
      let (bytes, err) := ReadAll r in
      match err with
      | Some e => Err e
      | None =>
          Ok {| filename := name;
                content := base64Encode bytes;
                content_type := mimeType |}
      end
  end.

(** The body of the two attachment loops (lines 133-139 and 144-150):
    [what] is the text the error starts with. *)
Fixpoint appendAttachments (what : string) (entries : list (string * Reader))
    (acc : list resendAttachment) : result (list resendAttachment) :=
  match entries with
  | [] => Ok acc
  | (name, data) :: rest =>
      match prepareAttachment name data with
      | Err err => Err (wrapNamedf what name err)
      | Ok attachment => appendAttachments what rest (acc ++ [attachment])
      end
  end.

(** Lines 81-151: the payload, or the error of the first attachment that
    could not be prepared. *)
Definition buildPayload (m : Message) (r : RandState)
    : result resendPayload * RandState :=
  let (hdrs, r') := customHeaders m r in
  let regular :=
    if (0 <? length (Attachments m))%nat
    then appendAttachments "failed to prepare attachment" (Attachments m) []
    else Ok [] in
  match regular with
  | Err err => (Err err, r')
  | Ok atts =>
      let all :=
        if (0 <? length (InlineAttachments m))%nat
        then appendAttachments "failed to prepare inline attachment"
               (InlineAttachments m) atts
        else Ok atts in
      match all with
      | Err err => (Err err, r')
      | Ok atts' =>
          (Ok {| from := addressString (From m);
                 to := addressesToStrings (To m) true;
                 cc := if (0 <? length (Cc m))%nat
                       then addressesToStrings (Cc m) true else [];
                 bcc := if (0 <? length (Bcc m))%nat
                        then addressesToStrings (Bcc m) true else [];
                 subject := Subject m;
                 html := HTML m;
                 text := textContent m;
                 headers := hdrs;
                 attachments := atts' |}, r')
      end
  end.

(** Lines 160-166: the request.  [http.NewRequest] cannot fail on the constant
    method and URL it is given here. *)
Definition newRequest (c : ResendClient) (jsonPayload : string) : Request :=
  {| Method := "POST";
     URL := resendAPIEndpoint;
     Header := [("Authorization", "Bearer " +:+ APIKey c);
                ("Content-Type", "application/json")];
     RequestBody := jsonPayload |}.

(** Lines 76-173 of [send]: everything up to the answer of the network. *)
Definition transmit (c : ResendClient) (m : Message) (w : World)
    : result Response * World :=
  if String.eqb (APIKey c) "" then (Err "resend API key is required", w)
  else
    let (built, r) := buildPayload m (rand w) in
    let w1 := {| requests := requests w; rand := r |} in
    match built with
    | Err err => (Err err, w1)
    | Ok payload =>
        match jsonMarshal payload with
        | Err err => (Err (wrapf "failed to marshal resend payload" err), w1)
        | Ok jsonPayload =>
            let req := newRequest c jsonPayload in
            let w2 := {| requests := requests w1 ++ [req]; rand := r |} in
            match clientDo (requests w1) req with
            | Err err =>
                (Err (wrapf "failed to send resend request" err), w2)
            | Ok resp => (Ok resp, w2)
            end
        end
    end.

(** [fmt.Errorf("resend API error (%d): %s", status, detail)]. *)
Definition apiError (status : Z) (detail : string) : string :=
  "resend API error (" +:+ formatInt status +:+ "): " +:+ detail.

(** Lines 176-186 of [send]: the response status. *)
Definition checkResponse (resp : Response) : error :=
  if (StatusCode resp <? 200) || (300 <=? StatusCode resp) then
    let (body, _) := ReadAll (Body resp) in
    match jsonUnmarshal body with
    | Some errResp =>
        if negb (String.eqb (message errResp) "")
        then Some (apiError (StatusCode resp) (message errResp))
        else Some (apiError (StatusCode resp) body)
    | None => Some (apiError (StatusCode resp) body)
    end
  else None.

(** [send]. *)
Definition send (c : ResendClient) (m : Message) (w : World)
    : error * World :=
  match transmit c m w with
  | (Err err, w') => (Some err, w')
  | (Ok resp, w') => (checkResponse resp, w')
  end.

(** [Send]. *)
Definition Send (c : ResendClient) (m : Message) (w : World)
    : error * World :=
  match onSend c with
  | Some h =>
      Trigger h {| EventMessage := m |}
        (fun e => send c (EventMessage e)) w
  | None => send c m w
  end.

(** ** Vocabulary of the properties *)

(** No key of the header map is [Message-ID] up to case. *)
Definition lacksMessageId (hs : gmap string string) : Prop :=
  map_Forall (fun k _ => EqualFold k "Message-ID" = false) hs.

(** The event the observer after the forwarding observers [fs] receives. *)
Definition forwarded (fs : list (SendEvent -> SendEvent)) (m : Message)
    : SendEvent :=
  foldl (fun e f => f e) {| EventMessage := m |} fs.

(** No hook is installed, or every observer forwards the event as it is and
    returns what the rest of the chain returns. *)
Definition passesThrough (c : ResendClient) : Prop :=
  match onSend c with
  | None => True
  | Some h => Forall (fun o : Observer => forall e, o e = Next e Return)
                (handlers h)
  end.

(** Sniffing and reading the stream to the end both succeed. *)
Definition readable (data : Reader) : Prop :=
  exists r mimeType,
    detectReaderMimeType data = Ok (r, mimeType) /\ snd (ReadAll r) = None.

(** Sniffing the stream fails with [err], or reading it to the end does. *)
Definition unreadable (data : Reader) (err : string) : Prop :=
  detectReaderMimeType data = Err err
  \/ exists r mimeType,
       detectReaderMimeType data = Ok (r, mimeType)
       /\ snd (ReadAll r) = Some err.

(** What one payload entry is to the attachment it was made from. *)
Definition encodes (entry : string * Reader) (a : resendAttachment) : Prop :=
  filename a = fst entry
  /\ exists r mimeType,
       detectReaderMimeType (snd entry) = Ok (r, mimeType)
       /\ content_type a = mimeType
       /\ base64Decode (content a) = Some (fst (ReadAll r)).

(** Every payload can be marshalled and the network answers every request of
    the client with a 2xx status. *)
Definition delivers (c : ResendClient) : Prop :=
  (forall p, exists jsonPayload, jsonMarshal p = Ok jsonPayload)
  /\ (forall earlier jsonPayload, exists resp,
        clientDo earlier (newRequest c jsonPayload) = Ok resp
        /\ 200 <= StatusCode resp < 300).

End Client.

(** ** Stand-ins for the collaborators

    One concrete implementation of each collaborator, used to run the client
    on concrete messages. *)

Definition defaultRandomAlphabet : string :=
  "abcdefghijklmnopqrstuvwxyzABCDEFGHIJKLMNOPQRSTUVWXYZ0123456789".

(** Modelled from the spec: the random-token generator [(length) -> token]
    (tools/security) is not part of the sources at hand; this one returns a
    token of exactly [length] characters of the alphanumeric alphabet, drawn
    from a linear congruential sequence. *)
Fixpoint pseudorandomString (length : nat) (seed : N) : string * N :=
  match length with
  | O => (EmptyString, seed)
  | S n =>
      let c := default "a"%char
                 (String.get (N.to_nat (seed mod 62)%N) defaultRandomAlphabet) in
      let (rest, seed') := pseudorandomString n ((seed * 75 + 74) mod 65537)%N in
      (String c rest, seed')
  end.

(** The ["Name <address>"] rendering of an address. *)
Definition plainAddressString (a : mail_Address) : string :=
  if String.eqb (Name a) "" then "<" +:+ Address a +:+ ">"
  else Name a +:+ " <" +:+ Address a +:+ ">".

(** A converter that knows one document and rejects an unclosed tag. *)
Definition sampleHtml2Text (html : string) : result string :=
  if String.eqb html "<p>Hi</p>" then Ok "Hi"
  else if String.eqb html "<p" then Err "unexpected end of input"
  else Ok html.

(** How many leading bytes the sniffer looks at. *)
Definition sniffLen : nat := 3072.

(** Modelled from the spec: the MIME-sniffing function
    [(stream) -> (stream-with-lookahead-preserved, mime-type, error)]
    (mailer.go) is not part of the sources at hand; this one peeks at up to
    [sniffLen] leading bytes, fails when the stream fails within them, and
    hands back a reader that still delivers the whole stream. *)
Definition sniffingDetect (r : Reader) : result (Reader * string) :=
  match failure r with
  | Some err =>
      if (String.length (delivered r) <? sniffLen)%nat then Err err
      else Ok (r, "application/octet-stream")
  | None => Ok (r, "application/octet-stream")
  end.

Definition quote : string := String "034"%char EmptyString.

(** A marshaller that keeps the subject only. *)
Definition sampleMarshal (p : resendPayload) : result string :=
  Ok ("{" +:+ quote +:+ "subject" +:+ quote +:+ ":" +:+ quote
      +:+ subject p +:+ quote +:+ "}").

(** The body [{"message":"Invalid API key"}]. *)
Definition invalidKeyBody : string :=
  "{" +:+ quote +:+ "message" +:+ quote +:+ ":" +:+ quote
  +:+ "Invalid API key" +:+ quote +:+ "}".

(** A decoder that knows [invalidKeyBody] only. *)
Definition sampleUnmarshal (body : string) : option resendErrorResponse :=
  if String.eqb body invalidKeyBody
  then Some {| statusCode := 0; message := "Invalid API key"; name := "" |}
  else None.

(** A network that rejects the key [re_invalid_key] with status 401 and
    accepts every other request with status 200. *)
Definition sampleClientDo (earlier : list Request) (req : Request)
    : result Response :=
  if bool_decide (("Authorization", "Bearer re_invalid_key") ∈ Header req)
  then Ok {| StatusCode := 401;
             Body := {| delivered := invalidKeyBody; failure := None |} |}
  else Ok {| StatusCode := 200;
             Body := {| delivered := "{}"; failure := None |} |}.

Definition sampleCollaborators : Collaborators := {|
  RandState := N;
  PseudorandomString := pseudorandomString;
  addressString := plainAddressString;
  html2Text := sampleHtml2Text;
  detectReaderMimeType := sniffingDetect;
  jsonMarshal := sampleMarshal;
  jsonUnmarshal := sampleUnmarshal;
  clientDo := sampleClientDo
|}.

Definition sampleWorld : @World sampleCollaborators :=
  @Build_World sampleCollaborators [] 2026%N.

(** The message of the specification's concrete scenario. *)
Definition scenarioMessage : Message := {|
  From := {| Name := "Test"; Address := "test@example.com" |};
  To := [{| Name := ""; Address := "r@example.com" |}];
  Cc := [];
  Bcc := [];
  Subject := "S";
  HTML := "<p>Hi</p>";
  Text := "";
  Headers := ∅;
  Attachments := [];
  InlineAttachments := []
|}.

Definition withHeaders (m : Message) (hs : gmap string string) : Message :=
  {| From := From m; To := To m; Cc := Cc m; Bcc := Bcc m;
     Subject := Subject m; HTML := HTML m; Text := Text m;
     Headers := hs;
     Attachments := Attachments m;
     InlineAttachments := InlineAttachments m |}.

Definition withFromAddress (m : Message) (address : string) : Message :=
  {| From := {| Name := Name (From m); Address := address |};
     To := To m; Cc := Cc m; Bcc := Bcc m;
     Subject := Subject m; HTML := HTML m; Text := Text m;
     Headers := Headers m;
     Attachments := Attachments m;
     InlineAttachments := InlineAttachments m |}.

Definition withAttachments (m : Message)
    (regular inline : list (string * Reader)) : Message :=
  {| From := From m; To := To m; Cc := Cc m; Bcc := Bcc m;
     Subject := Subject m; HTML := HTML m; Text := Text m;
     Headers := Headers m;
     Attachments := regular;
     InlineAttachments := inline |}.

Definition withBodies (m : Message) (htmlBody textBody : string) : Message :=
  {| From := From m; To := To m; Cc := Cc m; Bcc := Bcc m;
     Subject := Subject m; HTML := htmlBody; Text := textBody;
     Headers := Headers m;
     Attachments := Attachments m;
     InlineAttachments := InlineAttachments m |}.

Definition customHeader : gmap string string :=
  <["X-Custom-Header" := "custom-value"]> ∅.

(** The scenario message with one custom header. *)
Definition headedMessage : Message := withHeaders scenarioMessage customHeader.

(** The same with a sender address that has two [@]. *)
Definition twoAtMessage : Message := withFromAddress headedMessage "a@b@c".

Definition textReader : Reader :=
  {| delivered := "test content"; failure := None |}.

Definition logoReader : Reader :=
  {| delivered := "GIF89a"; failure := None |}.

(** A stream that breaks after three bytes. *)
Definition brokenReader : Reader :=
  {| delivered := "par"; failure := Some "unexpected EOF" |}.

Definition attachedMessage : Message :=
  withAttachments scenarioMessage
    [("test.txt", textReader)] [("logo.gif", logoReader)].

Definition brokenMessage : Message :=
  withAttachments scenarioMessage
    [("test.txt", textReader); ("broken.bin", brokenReader)]
    [("logo.gif", logoReader)].

(** A message whose HTML body the sample converter rejects. *)
Definition unconvertibleMessage : Message := withBodies scenarioMessage "<p" "".

Definition keyedClient : ResendClient :=
  {| onSend := None; APIKey := "re_test_key" |}.

Definition rejectedClient : ResendClient :=
  {| onSend := None; APIKey := "re_invalid_key" |}.


(** An observer that returns [err] without forwarding. *)
Definition shortCircuit (err : error) : Observer := fun _ => Return err.

(** A client whose hook has a forwarding observer, then an observer that
    returns [err] without forwarding, then one more observer. *)
Definition interceptedClient (key : string) (err : error) : ResendClient :=
  {| onSend := Some {| handlers := [forwarding id; shortCircuit err;
                                    forwarding id] |};
     APIKey := key |}.
(** A caller's message id under a lower-case key. *)
Definition lowerCaseIdHeader : gmap string string :=
  <["message-id" := "<caller@example.com>"]> ∅.

Definition callerIdMessage : Message :=
  withHeaders scenarioMessage lowerCaseIdHeader.

(** An observer's change to the event: the text body is replaced. *)
Definition rewriteText (e : SendEvent) : SendEvent :=
  {| EventMessage :=
       withBodies (EventMessage e) (HTML (EventMessage e)) "rewritten" |}.

Definition rewritingClient : ResendClient :=
  {| onSend := Some {| handlers := [forwarding rewriteText] |};
     APIKey := "re_test_key" |}.

(** * The mail settings page (the Svelte component of the admin UI)

    The script of the component: the variables it keeps, [init], [reset]
    and the two assignments of [save] that set the [enabled] flags.  The
    calls to the API client and the markup are left out. *)


Module MailSettingsPage.


#[local] Set Warnings "-register-all".

(** JavaScript values, as far as settings carry them: the values of JSON
    plus [undefined].  Numbers are the integers.  An array is an object
    too and can be given named properties besides its items. *)
Inductive JsValue : Type :=
| JsUndefined
| JsNull
| JsBool (b : bool)
| JsNumber (n : Z)
| JsString (s : string)
| JsArray (items : list JsValue) (props : gmap string JsValue)
| JsObject (props : gmap string JsValue).

(** [!!v]. *)
Definition truthy (v : JsValue) : bool :=
  match v with
  | JsUndefined | JsNull => false
  | JsBool b => b
  | JsNumber n => negb (n =? 0)
  | JsString s => negb (String.eqb s "")
  | JsArray _ _ | JsObject _ => true
  end.

(** [a || b]. *)
Definition orElse (a b : JsValue) : JsValue := if truthy a then a else b.

(** [v === "s"]. *)
Definition isString (v : JsValue) (s : string) : bool :=
  match v with
  | JsString s' => String.eqb s' s
  | _ => false
  end.

(** [v.k] for a property name [k] that no prototype defines, as are all the
    names the page uses: [None] is the TypeError of reading a property of
    [undefined] or [null]; a missing property reads as [undefined]. *)
Definition get (v : JsValue) (k : string) : option JsValue :=
  match v with
  | JsUndefined | JsNull => None
  | JsArray _ props | JsObject props => Some (default JsUndefined (props !! k))
  | JsBool _ | JsNumber _ | JsString _ => Some JsUndefined
  end.

(** [v?.k]. *)
Definition optGet (v : JsValue) (k : string) : JsValue :=
  default JsUndefined (get v k).

(** [v.k = x], in strict mode as in every module: [None] is the TypeError of
    setting a property of [undefined], [null] or a primitive value. *)
Definition set (v : JsValue) (k : string) (x : JsValue) : option JsValue :=
  match v with
  | JsObject props => Some (JsObject (<[k:=x]> props))
  | JsArray items props => Some (JsArray items (<[k:=x]> props))
  | _ => None
  end.

(** [JSON.parse(JSON.stringify(v))] for a [v] other than [undefined]: a
    property whose value is [undefined] is left out, an item that is
    [undefined] becomes [null], the named properties of an array are left
    out. *)
Fixpoint jsonCopy (v : JsValue) : JsValue :=
  match v with
  | JsUndefined => JsNull
  | JsArray items _ => JsArray (map jsonCopy items) ∅
  | JsObject props =>
      JsObject (omap (fun x => match x with
                               | JsUndefined => None
                               | _ => Some (jsonCopy x)
                               end) props)
  | _ => v
  end.

(** The variables of the component that hold data (the reference to the
    test popup is left out). *)
Record Page : Type := {
  originalFormSettings : JsValue;
  formSettings : JsValue;
  isLoading : bool;
  isSaving : bool;
  maskSmtpPassword : bool;
  maskResendApiKey : bool;
  showMoreOptions : bool
}.

(** The component as it is created (lines 34-41). *)
Definition created : Page := {|
  originalFormSettings := JsObject ∅;
  formSettings := JsObject ∅;
  isLoading := false;
  isSaving := false;
  maskSmtpPassword := false;
  maskResendApiKey := false;
  showMoreOptions := false
|}.

Definition setFormSettings (v : JsValue) (st : Page) : Page :=
  {| originalFormSettings := originalFormSettings st;
     formSettings := v;
     isLoading := isLoading st;
     isSaving := isSaving st;
     maskSmtpPassword := maskSmtpPassword st;
     maskResendApiKey := maskResendApiKey st;
     showMoreOptions := showMoreOptions st |}.

Definition setOriginalFormSettings (v : JsValue) (st : Page) : Page :=
  {| originalFormSettings := v;
     formSettings := formSettings st;
     isLoading := isLoading st;
     isSaving := isSaving st;
     maskSmtpPassword := maskSmtpPassword st;
     maskResendApiKey := maskResendApiKey st;
     showMoreOptions := showMoreOptions st |}.

Definition setMaskSmtpPassword (b : bool) (st : Page) : Page :=
  {| originalFormSettings := originalFormSettings st;
     formSettings := formSettings st;
     isLoading := isLoading st;
     isSaving := isSaving st;
     maskSmtpPassword := b;
     maskResendApiKey := maskResendApiKey st;
     showMoreOptions := showMoreOptions st |}.

Definition setMaskResendApiKey (b : bool) (st : Page) : Page :=
  {| originalFormSettings := originalFormSettings st;
     formSettings := formSettings st;
     isLoading := isLoading st;
     isSaving := isSaving st;
     maskSmtpPassword := maskSmtpPassword st;
     maskResendApiKey := b;
     showMoreOptions := showMoreOptions st |}.

(** A run of statements on the page: the value it gives, or [None] when a
    TypeError was thrown, and the page as the statements left it. *)
Definition JS (A : Type) : Type := Page -> option A * Page.

Definition jsRet {A} (a : A) : JS A := fun st => (Some a, st).

Definition jsBind {A B} (x : JS A) (k : A -> JS B) : JS B :=
  fun st => match x st with
            | (Some a, st') => k a st'
            | (None, st') => (None, st')
            end.

Notation "'let*' x := e 'in' k" := (jsBind e (fun x => k))
  (at level 10, x name, e at level 100, k at level 200).
Notation "e ;;; k" := (jsBind e (fun _ => k))
  (at level 100, k at level 200, right associativity).

(** The value of an expression that may throw. *)
Definition jsTry {A} (o : option A) : JS A := fun st => (o, st).

Definition jsRead {A} (f : Page -> A) : JS A := fun st => (Some (f st), st).

Definition jsWrite (f : Page -> Page) : JS unit := fun st => (Some tt, f st).

Definition jsWhen (b : bool) (x : JS unit) : JS unit :=
  if b then x else jsRet tt.

(** [formSettings.k]. *)
Definition readForm (k : string) : JS JsValue :=
  let* form := jsRead formSettings in jsTry (get form k).

(** [formSettings.k1.k2]. *)
Definition readForm2 (k1 k2 : string) : JS JsValue :=
  let* inner := readForm k1 in jsTry (get inner k2).

(** [formSettings.k1?.k2]. *)
Definition readForm2Opt (k1 k2 : string) : JS JsValue :=
  let* inner := readForm k1 in jsRet (optGet inner k2).

(** [formSettings.k = x]. *)
Definition assignForm (k : string) (x : JsValue) : JS unit :=
  let* form := jsRead formSettings in
  let* form' := jsTry (set form k x) in
  jsWrite (setFormSettings form').

(** [formSettings.k1.k2 = x]: the object under [k1] is changed in place. *)
Definition assignForm2 (k1 k2 : string) (x : JsValue) : JS unit :=
  let* inner := readForm k1 in
  let* inner' := jsTry (set inner k2 x) in
  assignForm k1 inner'.

(** [authMethods[0].value] (lines 27-30). *)
Definition defaultAuthMethod : JsValue := JsString "PLAIN".

(** An object with the four properties of the form settings. *)
Definition formWith (meta smtp resend emailProvider : JsValue) : JsValue :=
  JsObject
    (<["meta" := meta]>
       (<["smtp" := smtp]>
          (<["resend" := resend]>
             (<["emailProvider" := emailProvider]> ∅)))).

(** The object literal of lines 87-92. *)
Definition formOf (settings : JsValue) : JsValue :=
  formWith (orElse (optGet settings "meta") (JsObject ∅))
           (orElse (optGet settings "smtp") (JsObject ∅))
           (orElse (optGet settings "resend") (JsObject ∅))
           (orElse (optGet settings "emailProvider") (JsString "")).

(** [init] (lines 86-114).  The settings are a tree, as [JSON.parse] gives
    them: no object is reachable under two names. *)
Definition init (settings : JsValue) : JS unit :=
  let settings := match settings with
                  | JsUndefined => JsObject ∅
                  | _ => settings
                  end in
  jsWrite (setFormSettings (formOf settings)) ;;;
  let* smtpEnabled := readForm2 "smtp" "enabled" in
  let* provider := readForm "emailProvider" in
  jsWhen (truthy smtpEnabled && negb (truthy provider))
    (assignForm "emailProvider" (JsString "smtp")) ;;;
  let* resendEnabled := readForm2Opt "resend" "enabled" in
  let* provider := readForm "emailProvider" in
  jsWhen (truthy resendEnabled && negb (truthy provider))
    (assignForm "emailProvider" (JsString "resend")) ;;;
  let* authMethod := readForm2 "smtp" "authMethod" in
  jsWhen (negb (truthy authMethod))
    (assignForm2 "smtp" "authMethod" defaultAuthMethod) ;;;
  let* form := jsRead formSettings in
  jsWrite (setOriginalFormSettings (jsonCopy form)) ;;;
  let* username := readForm2 "smtp" "username" in
  jsWrite (setMaskSmtpPassword (truthy username)) ;;;
  let* provider := readForm "emailProvider" in
  let* resendEnabled := readForm2Opt "resend" "enabled" in
  jsWrite (setMaskResendApiKey
             (isString provider "resend" || truthy resendEnabled)).

(** [reset] (lines 116-122). *)
Definition reset : JS unit :=
  let* original := jsRead originalFormSettings in
  jsWrite (setFormSettings (jsonCopy (orElse original (JsObject ∅)))) ;;;
  let* original := jsRead originalFormSettings in
  let* smtp := jsTry (get original "smtp") in
  jsWrite (setMaskSmtpPassword (truthy (optGet smtp "username"))) ;;;
  let* provider := jsTry (get original "emailProvider") in
  let* resend := jsTry (get original "resend") in
  jsWrite (setMaskResendApiKey
             (isString provider "resend"
              || truthy (optGet resend "enabled"))).

(** Lines 72-73 of [save]: the enabled flags follow the chosen provider.
    [None] is a TypeError.  The objects under [smtp] and [resend] are
    distinct, as in every value that was parsed from JSON. *)
Definition syncEnabled (settingsToSave : JsValue) : option JsValue :=
  smtp ← get settingsToSave "smtp";
  provider ← get settingsToSave "emailProvider";
  smtp' ← set smtp "enabled" (JsBool (isString provider "smtp"));
  synced ← set settingsToSave "smtp" smtp';
  resend ← get synced "resend";
  provider' ← get synced "emailProvider";
  resend' ← set resend "enabled" (JsBool (isString provider' "resend"));
  set synced "resend" resend'.

(** A value is an object, not an array, or is falsy. *)
Definition objectOrFalsy (v : JsValue) : Prop :=
  truthy v = false \/ exists props, v = JsObject props.

(** The provider [init] settles on: the one of the settings when it is
    truthy, else SMTP or Resend when their legacy flag is set, else none. *)
Definition chosenProvider (settings : JsValue) : JsValue :=
  let given := orElse (optGet settings "emailProvider") (JsString "") in
  let afterSmtp :=
    if truthy (optGet (orElse (optGet settings "smtp") (JsObject ∅)) "enabled")
       && negb (truthy given)
    then JsString "smtp" else given in
  if truthy (optGet (orElse (optGet settings "resend") (JsObject ∅)) "enabled")
     && negb (truthy afterSmtp)
  then JsString "resend" else afterSmtp.

(** The SMTP settings [init] leaves in the form. *)
Definition smtpWithAuthMethod (settings : JsValue) : JsValue :=
  let smtp := orElse (optGet settings "smtp") (JsObject ∅) in
  if truthy (optGet smtp "authMethod") then smtp
  else default smtp (set smtp "authMethod" defaultAuthMethod).

(** The page after a run of [init] that does not throw. *)
Definition initialised (settings : JsValue) (st : Page) : Page :=
  let form := formWith (orElse (optGet settings "meta") (JsObject ∅))
                (smtpWithAuthMethod settings)
                (orElse (optGet settings "resend") (JsObject ∅))
                (chosenProvider settings) in
  {| originalFormSettings := jsonCopy form;
     formSettings := form;
     isLoading := isLoading st;
     isSaving := isSaving st;
     maskSmtpPassword :=
       truthy (optGet (smtpWithAuthMethod settings) "username");
     maskResendApiKey :=
       isString (chosenProvider settings) "resend"
       || truthy (optGet (orElse (optGet settings "resend") (JsObject ∅))
                    "enabled");
     showMoreOptions := showMoreOptions st |}.

(** The size of a value, for induction through items and properties. *)
Definition sizeProps (measure : JsValue -> nat) (props : gmap string JsValue)
    : nat :=
  map_fold (fun _ x acc => measure x + acc)%nat 0%nat props.

Fixpoint jsSize (v : JsValue) : nat :=
  match v with
  | JsArray items props =>
      S (foldr (fun x acc => jsSize x + acc)%nat 0%nat items
         + sizeProps jsSize props)
  | JsObject props => S (sizeProps jsSize props)
  | _ => 1%nat
  end.

(** The property [k] of the copy of an object. *)
Definition copiedProp (x : JsValue) : option JsValue :=
  match x with
  | JsUndefined => None
  | _ => Some (jsonCopy x)
  end.

(** Settings of an installation from before the provider was stored: both
    legacy flags are set and no provider is named. *)
Definition legacySettings : JsValue :=
  JsObject
    (<["smtp" := JsObject (<["enabled" := JsBool true]>
                             (<["username" := JsString "mailer"]>
                                (<["port" := JsNumber 587]> ∅)))]>
       (<["resend" := JsObject (<["enabled" := JsBool true]> ∅)]> ∅)).

(** A form in which Resend was chosen while the SMTP flag is still set. *)
Definition resendChosen : gmap string JsValue :=
  <["smtp" := JsObject (<["enabled" := JsBool true]> ∅)]>
    (<["resend" := JsObject ∅]>
       (<["emailProvider" := JsString "resend"]> ∅)).

End MailSettingsPage.

Example base64Encode_hello : base64Encode "test content" = "dGVzdCBjb250ZW50".
Proof. reflexivity. Qed.

Example base64Encode_padded :
  base64Encode "Hi" = "SGk=" /\ base64Encode "H" = "SA==".
Proof. split; reflexivity. Qed.

Example base64Decode_hello : base64Decode "dGVzdCBjb250ZW50" = Some "test content".
Proof. reflexivity. Qed.

Example EqualFold_examples :
  EqualFold "message-id" "Message-ID" = true
  /\ EqualFold "MESSAGE-ID" "Message-ID" = true
  /\ EqualFold "X-Message-ID" "Message-ID" = false
  /\ EqualFold "Message-I" "Message-ID" = false.
Proof. repeat split; reflexivity. Qed.

Example Split_examples :
  Split "test@example.com" "@" = ["test"; "example.com"]
  /\ Split "nobody" "@" = ["nobody"]
  /\ Split "a@b@c" "@" = ["a"; "b"; "c"]
  /\ Split "" "@" = [""].
Proof. repeat split; reflexivity. Qed.

Example formatInt_401 : formatInt 401 = "401".
Proof. reflexivity. Qed.


Example pseudorandomString_length :
  String.length (fst (pseudorandomString 15 2026)) = 15%nat.
Proof. reflexivity. Qed.

Example interceptedClient_registered :
  onSend (interceptedClient "re_test_key" None)
  = Some (Register
            (Register (Register (snd (OnSend keyedClient)) (forwarding id))
               (shortCircuit None))
            (forwarding id)).
Proof. reflexivity. Qed.

Example scenario_send :
  fst (@Send sampleCollaborators {| onSend := None; APIKey := "re_test_key" |}
         scenarioMessage sampleWorld) = None.
Proof. vm_compute. reflexivity. Qed.

(** * Properties *)

(** ** Base64 *)

Lemma decodeSextet_encodeSextet (x : sextet) :
  decodeSextet (encodeSextet x) = Some x.
Proof.
  destruct x as [[[[[h5 h4] h3] h2] h1] h0].
  destruct h5, h4, h3, h2, h1, h0; reflexivity.
Qed.

Lemma encodeSextet_not_pad (x : sextet) :
  Ascii.eqb (encodeSextet x) padChar = false.
Proof.
  destruct x as [[[[[h5 h4] h3] h2] h1] h0].
  destruct h5, h4, h3, h2, h1, h0; reflexivity.
Qed.

(** Induction on a byte string in steps of three, the way the encoder
    consumes it. *)
Lemma string_ind3 (P : string -> Prop) :
  P EmptyString ->
  (forall a, P (String a EmptyString)) ->
  (forall a b, P (String a (String b EmptyString))) ->
  (forall a b c s, P s -> P (String a (String b (String c s)))) ->
  forall s, P s.
Proof.
  intros H0 H1 H2 H3 s.
  assert (HP : P s /\ (forall a, P (String a s))
               /\ (forall a b, P (String a (String b s)))).
  { induction s as [|c s (IH0 & IH1 & IH2)].
    - auto.
    - repeat split; auto. }
  apply HP.
Qed.

Lemma base64Decode_Encode (src : string) :
  base64Decode (base64Encode src) = Some src.
Proof.
  induction src as [| a | a b | a b c rest IH] using string_ind3.
  - reflexivity.
  - destruct a as [a0 a1 a2 a3 a4 a5 a6 a7]. cbn [base64Encode base64Decode].
    rewrite !decodeSextet_encodeSextet. reflexivity.
  - destruct a as [a0 a1 a2 a3 a4 a5 a6 a7], b as [b0 b1 b2 b3 b4 b5 b6 b7].
    cbn [base64Encode base64Decode].
    rewrite !decodeSextet_encodeSextet, encodeSextet_not_pad. reflexivity.
  - destruct a as [a0 a1 a2 a3 a4 a5 a6 a7], b as [b0 b1 b2 b3 b4 b5 b6 b7],
      c as [c0 c1 c2 c3 c4 c5 c6 c7].
    cbn [base64Encode base64Decode].
    rewrite !decodeSextet_encodeSextet, encodeSextet_not_pad, IH. reflexivity.
Qed.

(** ** Strings *)

Lemma append_nil_l (s : string) : "" +:+ s = s.
Proof. reflexivity. Qed.

Lemma append_cons (a : ascii) (s t : string) :
  String a s +:+ t = String a (s +:+ t).
Proof. reflexivity. Qed.

Lemma append_assoc (a b c : string) : (a +:+ b) +:+ c = a +:+ b +:+ c.
Proof.
  induction a as [|x a IH]; rewrite ?append_nil_l, ?append_cons; congruence.
Qed.

Lemma append_empty_r (a : string) : a +:+ "" = a.
Proof.
  induction a as [|x a IH]; rewrite ?append_nil_l, ?append_cons; congruence.
Qed.

Lemma length_append (a b : string) :
  String.length (a +:+ b) = (String.length a + String.length b)%nat.
Proof.
  induction a as [|x a IH]; rewrite ?append_nil_l, ?append_cons; cbn;
    congruence.
Qed.


Lemma Contains_refl (s : string) : Contains s s.
Proof. exists "", "". by rewrite append_nil_l, append_empty_r. Qed.

Lemma Contains_append_r (pre s sub : string) :
  Contains s sub -> Contains (pre +:+ s) sub.
Proof.
  intros (p & q & ->). exists (pre +:+ p), q. by rewrite append_assoc.
Qed.

Lemma Contains_append_l (s post sub : string) :
  Contains s sub -> Contains (s +:+ post) sub.
Proof.
  intros (p & q & ->). exists p, (q +:+ post). by rewrite !append_assoc.
Qed.

Lemma length_Split (s : string) (sep : ascii) :
  length (Split s sep) = S (countByte sep s).
Proof.
  induction s as [|a s IH]; cbn; [reflexivity|].
  destruct (Ascii.eqb a sep); cbn.
  - by rewrite IH.
  - destruct (Split s sep) eqn:E; cbn in *; [discriminate | exact IH].
Qed.

Lemma Split_without (s : string) (sep : ascii) :
  countByte sep s = 0%nat -> Split s sep = [s].
Proof.
  induction s as [|b s IH]; cbn; [done|].
  destruct (Ascii.eqb b sep); cbn; [discriminate|].
  intros Hz. by rewrite (IH Hz).
Qed.

(** With exactly one separator the two parts are what stands before and
    after it. *)
Lemma Split_once (s : string) (sep : ascii) :
  countByte sep s = 1%nat ->
  exists before after,
    Split s sep = [before; after]
    /\ s = before +:+ String sep after
    /\ countByte sep before = 0%nat /\ countByte sep after = 0%nat.
Proof.
  induction s as [|a s IH]; cbn; [discriminate|].
  destruct (Ascii.eqb a sep) eqn:E; cbn.
  - intros Hc. apply Ascii.eqb_eq in E. subst a.
    assert (Hz : countByte sep s = 0%nat) by lia.
    exists "", s. rewrite append_nil_l, (Split_without _ _ Hz). done.
  - intros Hc. destruct (IH Hc) as (before & after & -> & -> & Hb & Ha).
    exists (String a before), after. rewrite append_cons. cbn. rewrite E.
    repeat split; done.
Qed.

Section Properties.
Context `{Collaborators}.

(** ** The header loop *)

Lemma copyHeaders_spec (hs : gmap string string) :
  snd (copyHeaders hs) = hs
  /\ (fst (copyHeaders hs) = false <-> lacksMessageId hs).
Proof.
  unfold copyHeaders, lacksMessageId.
  apply (map_fold_weak_ind
    (fun (acc : bool * gmap string string) (m : gmap string string) =>
       snd acc = m
       /\ (fst acc = false
           <-> map_Forall (fun k _ => EqualFold k "Message-ID" = false) m))).
  - split; [done|]. split; [intros _; apply map_Forall_empty | done].
  - intros k v m acc Hfresh [Hcopy Hflag]. cbn. split; [by rewrite Hcopy|].
    rewrite map_Forall_insert by done.
    destruct (EqualFold k "Message-ID"); split; try done.
    + by intros [? _].
    + intros Hacc. split; [done | by apply Hflag].
    + intros [_ Hall]. by apply Hflag.
Qed.

Lemma size_pos_nonempty (hs : gmap string string) :
  (0 <? size hs)%nat = true <-> hs <> ∅.
Proof.
  rewrite Nat.ltb_lt. split.
  - intros Hs ->. rewrite map_size_empty in Hs. lia.
  - intros Hne. destruct (size hs) eqn:E; [|lia].
    by apply map_size_empty_iff in E.
Qed.

(** Headers that lack a message id, with a sender address that has exactly
    one [@]: the copy of the caller's headers plus the default message id. *)
Lemma customHeaders_default (m : Message) (r : RandState)
    (before domain : string) :
  Headers m <> ∅ ->
  lacksMessageId (Headers m) ->
  Split (Address (From m)) "@" = [before; domain] ->
  customHeaders m r =
    (Some (<["Message-ID" :=
              formatMessageId (fst (PseudorandomString 15 r)) domain]>
             (Headers m)),
     snd (PseudorandomString 15 r)).
Proof.
  intros Hne Hlacks Hsplit. unfold customHeaders.
  apply size_pos_nonempty in Hne. rewrite Hne.
  destruct (copyHeaders_spec (Headers m)) as [Hcopy Hflag].
  destruct (copyHeaders (Headers m)) as [flag out]. cbn in Hcopy, Hflag.
  apply Hflag in Hlacks. subst flag out. cbn.
  rewrite Hsplit. cbn. by destruct (PseudorandomString 15 r).
Qed.

(** In every other case the payload headers are the caller's headers, or
    nil when there are none, and the random source is not used. *)
Lemma customHeaders_plain (m : Message) (r : RandState) :
  Headers m = ∅
  \/ ~ lacksMessageId (Headers m)
  \/ length (Split (Address (From m)) "@") <> 2%nat ->
  customHeaders m r =
    (if (0 <? size (Headers m))%nat then Some (Headers m) else None, r).
Proof.
  intros Hcase. unfold customHeaders.
  destruct (0 <? size (Headers m))%nat eqn:Hsize; [|done].
  destruct (copyHeaders_spec (Headers m)) as [Hcopy Hflag].
  destruct (copyHeaders (Headers m)) as [flag out]. cbn in Hcopy, Hflag.
  subst out. destruct flag; cbn; [done|].
  destruct Hcase as [Hempty | [Hhas | Hlen]].
  - apply size_pos_nonempty in Hsize. done.
  - destruct Hhas. by apply Hflag.
  - apply Nat.eqb_neq in Hlen. by rewrite Hlen.
Qed.

(** ** The attachment loops *)

Lemma prepareAttachment_readable (name : string) (data : Reader) :
  readable data ->
  exists r mimeType,
    detectReaderMimeType data = Ok (r, mimeType)
    /\ prepareAttachment name data =
         Ok {| filename := name;
               content := base64Encode (fst (ReadAll r));
               content_type := mimeType |}.
Proof.
  intros (r & mimeType & Hdetect & Hread). exists r, mimeType.
  split; [done|]. unfold prepareAttachment. rewrite Hdetect.
  unfold ReadAll in *. cbn in *. by rewrite Hread.
Qed.

Lemma prepareAttachment_unreadable (name : string) (data : Reader)
    (err : string) :
  unreadable data err -> prepareAttachment name data = Err err.
Proof.
  unfold prepareAttachment.
  intros [Hdetect | (r & mimeType & Hdetect & Hread)]; rewrite Hdetect; [done|].
  unfold ReadAll in *. cbn in *. by rewrite Hread.
Qed.

Lemma readable_or_unreadable (data : Reader) :
  readable data \/ exists err, unreadable data err.
Proof.
  unfold readable, unreadable.
  destruct (detectReaderMimeType data) as [[r mimeType]|err] eqn:Hdetect.
  - destruct (snd (ReadAll r)) as [err|] eqn:Hread.
    + right. exists err. right. by exists r, mimeType.
    + left. by exists r, mimeType.
  - right. exists err. by left.
Qed.

Lemma readable_not_unreadable (data : Reader) (err : string) :
  readable data -> unreadable data err -> False.
Proof.
  intros (r & mimeType & Hdetect & Hread)
         [Hfail | (r' & mimeType' & Hdetect' & Hread')]; [congruence|].
  rewrite Hdetect in Hdetect'. by simplify_eq.
Qed.

Lemma appendAttachments_readable (what : string)
    (entries : list (string * Reader)) (acc : list resendAttachment) :
  Forall (fun entry => readable (snd entry)) entries ->
  exists added,
    appendAttachments what entries acc = Ok (acc ++ added)
    /\ Forall2 encodes entries added.
Proof.
  intros Hall. revert acc.
  induction Hall as [|[name data] entries Hdata _ IH]; intros acc.
  - exists []. cbn. by rewrite app_nil_r.
  - destruct (prepareAttachment_readable name data Hdata)
      as (r & mimeType & Hdetect & Hprep).
    cbn. rewrite Hprep.
    destruct (IH (acc ++ [{| filename := name;
                             content := base64Encode (fst (ReadAll r));
                             content_type := mimeType |}]))
      as (added & Hrest & Henc).
    eexists (_ :: added). rewrite Hrest, <- app_assoc. split; [done|].
    constructor; [|done]. split; [done|]. exists r, mimeType.
    cbn. by rewrite base64Decode_Encode.
Qed.

(** The loop stops at the first entry that cannot be prepared, with an error
    that names it. *)
Lemma appendAttachments_unreadable (what : string)
    (before after : list (string * Reader)) (name : string) (data : Reader)
    (err : string) (acc : list resendAttachment) :
  Forall (fun entry => readable (snd entry)) before ->
  unreadable data err ->
  appendAttachments what (before ++ (name, data) :: after) acc =
    Err (wrapNamedf what name err).
Proof.
  intros Hbefore Hdata. revert acc.
  induction Hbefore as [|[n d] before Hd _ IH]; intros acc; cbn.
  - by rewrite (prepareAttachment_unreadable name data err).
  - destruct (prepareAttachment_readable n d Hd) as (r & mt & _ & ->).
    apply IH.
Qed.

(** ** The payload *)

Lemma buildPayload_headers (m : Message) (r r' : RandState)
    (p : resendPayload) :
  buildPayload m r = (Ok p, r') ->
  headers p = fst (customHeaders m r) /\ r' = snd (customHeaders m r)
  /\ text p = textContent m.
Proof.
  unfold buildPayload. destruct (customHeaders m r) as [hdrs r1].
  repeat match goal with
         | |- context [match ?x with _ => _ end] => destruct x
         end; intros Hp; simplify_eq; done.
Qed.

(** The guards [len(...) > 0] around the two loops change nothing: a loop
    over no entries does nothing. *)
Lemma attachment_guard {A} (entries : list A)
    (looped skipped : result (list resendAttachment)) :
  (entries = [] -> looped = skipped) ->
  (if (0 <? length entries)%nat then looped else skipped) = looped.
Proof. destruct entries; cbn; [intros Heq; by rewrite Heq | done]. Qed.

(** The payload is built whenever every attachment can be read, whatever
    the other fields of the message are. *)
Lemma buildPayload_readable (m : Message) (r : RandState) :
  Forall (fun entry => readable (snd entry))
    (Attachments m ++ InlineAttachments m) ->
  exists p,
    buildPayload m r = (Ok p, snd (customHeaders m r))
    /\ Forall2 encodes (Attachments m ++ InlineAttachments m) (attachments p).
Proof.
  intros Hall. apply Forall_app in Hall as [Hregular Hinline].
  unfold buildPayload. destruct (customHeaders m r) as [hdrs r1].
  rewrite attachment_guard by (by intros ->).
  destruct (appendAttachments_readable "failed to prepare attachment"
              (Attachments m) [] Hregular) as (regular & -> & Hreg).
  cbn [app].
  rewrite attachment_guard by (by intros ->).
  destruct (appendAttachments_readable "failed to prepare inline attachment"
              (InlineAttachments m) regular Hinline) as (inline & -> & Hinl).
  eexists. split; [reflexivity|]. cbn. by apply Forall2_app.
Qed.

(** The payload is not built when an attachment cannot be read: the error
    is that of the first such attachment in the order of the two loops. *)
Lemma buildPayload_unreadable (m : Message) (r : RandState)
    (before after : list (string * Reader)) (name : string) (data : Reader)
    (err : string) :
  Attachments m ++ InlineAttachments m = before ++ (name, data) :: after ->
  Forall (fun entry => readable (snd entry)) before ->
  unreadable data err ->
  exists what,
    buildPayload m r = (Err (wrapNamedf what name err), snd (customHeaders m r)).
Proof.
  intros Hsplit Hbefore Hdata.
  unfold buildPayload. destruct (customHeaders m r) as [hdrs r1]. cbn [snd].
  rewrite attachment_guard by (by intros ->).
  destruct (decide (length before < length (Attachments m))%nat) as [Hlt|Hge].
  - (* the failing entry is a regular attachment *)
    assert (Hreg : Attachments m
                   = before ++ (name, data)
                       :: take (length (Attachments m) - S (length before)) after).
    { apply (f_equal (take (length (Attachments m)))) in Hsplit.
      rewrite take_app_length in Hsplit. rewrite Hsplit at 1.
      rewrite take_app_ge by lia. f_equal.
      replace (length (Attachments m) - length before)%nat
        with (S (length (Attachments m) - S (length before))) by lia.
      done. }
    rewrite Hreg.
    rewrite (appendAttachments_unreadable _ before _ name data err) by done.
    by eexists.
  - (* every regular attachment is read; the failing entry is inline *)
    assert (Hreg : Attachments m = take (length (Attachments m)) before).
    { apply (f_equal (take (length (Attachments m)))) in Hsplit.
      rewrite take_app_length in Hsplit. rewrite Hsplit at 1.
      rewrite take_app_le by lia. done. }
    assert (Hinl : InlineAttachments m
                   = drop (length (Attachments m)) before
                       ++ (name, data) :: after).
    { apply (f_equal (drop (length (Attachments m)))) in Hsplit.
      rewrite drop_app_length in Hsplit. rewrite Hsplit.
      rewrite drop_app_le by lia. done. }
    assert (Hregular : Forall (fun entry => readable (snd entry))
                         (Attachments m)).
    { rewrite Hreg. by apply Forall_take. }
    destruct (appendAttachments_readable "failed to prepare attachment"
                (Attachments m) [] Hregular) as (regular & -> & _).
    cbn [app].
    rewrite attachment_guard by (by intros ->).
    rewrite Hinl.
    rewrite (appendAttachments_unreadable _ _ _ name data err);
      [by eexists | by apply Forall_drop | done].
Qed.

(** The first entry that cannot be read, when there is one. *)
Lemma first_unreadable (entries : list (string * Reader)) :
  Exists (fun entry => exists err, unreadable (snd entry) err) entries ->
  exists before name data after err,
    entries = before ++ (name, data) :: after
    /\ Forall (fun entry => readable (snd entry)) before
    /\ unreadable data err.
Proof.
  induction entries as [|[n d] entries IH]; intros Hex.
  - by apply Exists_nil in Hex.
  - destruct (readable_or_unreadable d) as [Hd | [err Hd]].
    + apply Exists_cons in Hex as [[err Hbad] | Hex].
      { destruct (readable_not_unreadable d err Hd Hbad). }
      destruct (IH Hex) as (before & name & data & after & err & -> & Hb & Hu).
      exists ((n, d) :: before), name, data, after, err.
      repeat split; [|done]. by constructor.
    + exists [], n, d, entries, err. repeat split; [|done]. constructor.
Qed.

(** ** The transmission *)

Lemma eqb_empty_false (s : string) : s <> "" -> String.eqb s "" = false.
Proof. intros Hne. by apply String.eqb_neq. Qed.

(** Without an API key nothing is built and nothing is sent. *)
Lemma send_without_key (c : ResendClient) (m : Message) (w : World) :
  APIKey c = "" -> send c m w = (Some "resend API key is required", w).
Proof. intros Hkey. unfold send, transmit. by rewrite Hkey. Qed.

(** [send] classifies the response it received. *)
Lemma send_received (c : ResendClient) (m : Message) (w w' : World)
    (resp : Response) :
  transmit c m w = (Ok resp, w') -> send c m w = (checkResponse resp, w').
Proof. intros Hresp. unfold send. by rewrite Hresp. Qed.

Lemma send_not_built (c : ResendClient) (m : Message) (w : World)
    (err : string) (r : RandState) :
  APIKey c <> "" ->
  buildPayload m (rand w) = (Err err, r) ->
  send c m w = (Some err, {| requests := requests w; rand := r |}).
Proof.
  intros Hkey Hbuild. unfold send, transmit.
  by rewrite (eqb_empty_false _ Hkey), Hbuild.
Qed.

Lemma checkResponse_2xx (resp : Response) :
  200 <= StatusCode resp < 300 -> checkResponse resp = None.
Proof.
  intros [Hlo Hhi]. unfold checkResponse.
  destruct (StatusCode resp <? 200) eqn:E1; [lia|].
  destruct (300 <=? StatusCode resp) eqn:E2; [lia|]. done.
Qed.

Lemma checkResponse_other (resp : Response) :
  ~ (200 <= StatusCode resp < 300) ->
  checkResponse resp =
    Some (apiError (StatusCode resp)
            match jsonUnmarshal (delivered (Body resp)) with
            | Some errResp =>
                if String.eqb (message errResp) "" then delivered (Body resp)
                else message errResp
            | None => delivered (Body resp)
            end).
Proof.
  intros Hout. unfold checkResponse.
  destruct (StatusCode resp <? 200) eqn:E1;
    destruct (300 <=? StatusCode resp) eqn:E2; try lia; cbn;
    destruct (jsonUnmarshal (delivered (Body resp))) as [errResp|];
    try done; by destruct (String.eqb (message errResp) "").
Qed.

(** With a key, readable attachments, a payload that marshals and a network
    that accepts, [send] returns nil, whatever the rest of the message is. *)
Lemma send_delivers (c : ResendClient) (m : Message) (w : World) :
  APIKey c <> "" ->
  delivers c ->
  Forall (fun entry => readable (snd entry))
    (Attachments m ++ InlineAttachments m) ->
  fst (send c m w) = None.
Proof.
  intros Hkey [Hmarshal Hnet] Hall.
  destruct (buildPayload_readable m (rand w) Hall) as (p & Hbuild & _).
  destruct (Hmarshal p) as (jsonPayload & Hjson).
  destruct (Hnet (requests w) jsonPayload) as (resp & Hdo & Hstatus).
  unfold send, transmit.
  rewrite (eqb_empty_false _ Hkey), Hbuild, Hjson. cbn.
  rewrite Hdo. cbn. by apply checkResponse_2xx.
Qed.

(** ** The hook *)

(** The chain changes the world only through its terminal function. *)
Lemma runAction_preserves (P : World -> World -> Prop)
    (next : SendEvent -> World -> error * World) :
  (forall w, P w w) ->
  (forall w1 w2 w3, P w1 w2 -> P w2 w3 -> P w1 w3) ->
  (forall e w, P w (snd (next e w))) ->
  forall a w, P w (snd (runAction a next w)).
Proof.
  intros Hrefl Htrans Hnext a.
  induction a as [err | e k IH]; intros w; cbn; [apply Hrefl|].
  specialize (Hnext e w). destruct (next e w) as [err w1]. cbn in Hnext.
  eapply Htrans; [exact Hnext | apply IH].
Qed.

Lemma compose_preserves (P : World -> World -> Prop)
    (terminal : SendEvent -> World -> error * World) :
  (forall w, P w w) ->
  (forall w1 w2 w3, P w1 w2 -> P w2 w3 -> P w1 w3) ->
  (forall e w, P w (snd (terminal e w))) ->
  forall observers e w, P w (snd (compose observers terminal e w)).
Proof.
  intros Hrefl Htrans Hterm observers.
  induction observers as [|o rest IH]; intros e w; cbn; [apply Hterm|].
  by apply runAction_preserves.
Qed.

Lemma runAction_forward (e : SendEvent)
    (next : SendEvent -> World -> error * World) (w : World) :
  runAction (Next e Return) next w = next e w.
Proof. cbn. by destruct (next e w). Qed.

(** Forwarding observers hand the event on, mutated in registration order. *)
Lemma compose_forwarding (fs : list (SendEvent -> SendEvent))
    (rest : list Observer) (terminal : SendEvent -> World -> error * World)
    (e : SendEvent) (w : World) :
  compose (map forwarding fs ++ rest) terminal e w =
    compose rest terminal (foldl (fun e f => f e) e fs) w.
Proof.
  revert e. induction fs as [|f fs IH]; intros e; [done|].
  cbn [map app compose foldl]. unfold forwarding at 1.
  rewrite runAction_forward. apply IH.
Qed.


Lemma compose_passes_through (observers : list Observer)
    (terminal : SendEvent -> World -> error * World)
    (e : SendEvent) (w : World) :
  Forall (fun o : Observer => forall e, o e = Next e Return) observers ->
  compose observers terminal e w = terminal e w.
Proof.
  intros Hall. revert e.
  induction Hall as [|o rest Ho _ IH]; intros e; [done|].
  cbn [compose]. rewrite Ho, runAction_forward. apply IH.
Qed.


(** Where nothing intercepts, [Send] is [send]. *)
Lemma Send_passes_through (c : ResendClient) (m : Message) (w : World) :
  passesThrough c -> Send c m w = send c m w.
Proof.
  unfold passesThrough, Send, Trigger.
  destruct (onSend c) as [h|]; [|done].
  intros Hall. by rewrite compose_passes_through.
Qed.

(** ** More on the payload *)

Lemma customHeaders_copies (m : Message) (r : RandState) (k v : string) :
  Headers m !! k = Some v ->
  exists hs, fst (customHeaders m r) = Some hs /\ hs !! k = Some v.
Proof.
  intros Hkv. unfold customHeaders.
  assert (Hne : Headers m <> ∅) by (intros Hempty; by rewrite Hempty in Hkv).
  apply size_pos_nonempty in Hne. rewrite Hne.
  destruct (copyHeaders_spec (Headers m)) as [Hcopy Hflag].
  destruct (copyHeaders (Headers m)) as [flag out]. cbn in Hcopy, Hflag.
  subst out. destruct flag; cbn; [by eexists|].
  destruct (length (Split (Address (From m)) "@") =? 2)%nat; [|by eexists].
  destruct (PseudorandomString 15 r) as [token r1]. cbn.
  eexists. split; [reflexivity|].
  rewrite lookup_insert_ne; [done|]. intros <-.
  assert (Hlacks : lacksMessageId (Headers m)) by (by apply Hflag).
  specialize (Hlacks "Message-ID" v Hkv). cbn in Hlacks. discriminate.
Qed.

Lemma buildPayload_built (m : Message) (r r' : RandState)
    (p : resendPayload) :
  buildPayload m r = (Ok p, r') ->
  Forall (fun entry => readable (snd entry))
    (Attachments m ++ InlineAttachments m).
Proof.
  intros Hbuild.
  assert (Hcases :
    forall entries : list (string * Reader),
      Forall (fun entry => readable (snd entry)) entries
      \/ Exists (fun entry => exists err, unreadable (snd entry) err) entries).
  { induction entries as [|[n d] entries [IH|IH]].
    - left. constructor.
    - destruct (readable_or_unreadable d) as [Hd|Hd].
      + left. by constructor.
      + right. by apply Exists_cons_hd.
    - right. by apply Exists_cons_tl. }
  destruct (Hcases (Attachments m ++ InlineAttachments m)) as [Hall|Hex];
    [done|].
  destruct (first_unreadable _ Hex)
    as (before & name & data & after & err & Hsplit & Hbefore & Hdata).
  destruct (buildPayload_unreadable m r _ _ _ _ _ Hsplit Hbefore Hdata)
    as (what & Hfail).
  congruence.
Qed.

(** [OnSend] creates the hook once: asking again gives the same hook and
    leaves the client as it is. *)
Lemma OnSend_again (c : ResendClient) :
  OnSend (fst (OnSend c)) = (fst (OnSend c), snd (OnSend c)).
Proof. unfold OnSend. destruct (onSend c) eqn:E; cbn; by rewrite ?E. Qed.

(** ** The statements of the specification *)

(** C1 (as amended): when the API key is the empty string, [send] returns
    the error "resend API key is required" and leaves the world as it was;
    [Send] sends no request on the network, whatever observers the hook has;
    and [Send] returns that error whenever no observer intercepts. *)
Theorem missing_key_no_request (c : ResendClient) (m : Message) (w : World) :
  APIKey c = "" ->
  send c m w = (Some "resend API key is required", w)
  /\ requests (snd (Send c m w)) = requests w
  /\ (passesThrough c ->
      Send c m w = (Some "resend API key is required", w)).
Proof.
  intros Hkey. split; [by apply send_without_key|]. split.
  - unfold Send. destruct (onSend c) as [h|].
    + unfold Trigger.
      apply (compose_preserves (fun w1 w2 => requests w2 = requests w1)).
      * done.
      * intros w1 w2 w3 H12 H23. by rewrite H23.
      * intros e w0. by rewrite send_without_key.
    + by rewrite send_without_key.
  - intros Hpass. rewrite Send_passes_through by done.
    by apply send_without_key.
Qed.



(** C4: for the response that [send] received, a status from 200 to 299
    makes [Send] return nil whatever the body is; any other status makes it
    return an error whose text contains the status code and the message of
    the decoded error body when that message is not empty, and the raw body
    otherwise. *)
Theorem response_classification (c : ResendClient) (m : Message)
    (w w' : World) (resp : Response) :
  passesThrough c ->
  transmit c m w = (Ok resp, w') ->
  (200 <= StatusCode resp < 300 -> Send c m w = (None, w'))
  /\ (~ (200 <= StatusCode resp < 300) ->
      exists detail,
        Send c m w = (Some (apiError (StatusCode resp) detail), w')
        /\ Contains (apiError (StatusCode resp) detail)
             (formatInt (StatusCode resp))
        /\ Contains (apiError (StatusCode resp) detail) detail
        /\ (forall errResp,
              jsonUnmarshal (delivered (Body resp)) = Some errResp ->
              message errResp <> "" -> detail = message errResp)
        /\ (jsonUnmarshal (delivered (Body resp)) = None ->
            detail = delivered (Body resp))
        /\ (forall errResp,
              jsonUnmarshal (delivered (Body resp)) = Some errResp ->
              message errResp = "" -> detail = delivered (Body resp))).
Proof.
  intros Hpass Hresp. rewrite Send_passes_through by done.
  rewrite (send_received _ _ _ _ _ Hresp). split.
  - intros Hin. by rewrite checkResponse_2xx.
  - intros Hout. rewrite checkResponse_other by done.
    eexists. split; [reflexivity|]. repeat split.
    + unfold apiError. apply Contains_append_r, Contains_append_l.
      apply Contains_refl.
    + unfold apiError. do 3 apply Contains_append_r. apply Contains_refl.
    + intros errResp -> Hmsg. by rewrite eqb_empty_false.
    + by intros ->.
    + intros errResp -> ->. done.
Qed.

(** C5: when sniffing or reading an attachment stream fails, [Send] returns
    an error whose text names the first attachment, in the order of the two
    loops, that could not be read, and carries its error; no request is sent
    on the network. *)
Theorem attachment_failure_aborts (c : ResendClient) (m : Message)
    (w : World) :
  passesThrough c ->
  APIKey c <> "" ->
  Exists (fun entry => exists err, unreadable (snd entry) err)
    (Attachments m ++ InlineAttachments m) ->
  exists before name data after err text,
    Attachments m ++ InlineAttachments m = before ++ (name, data) :: after
    /\ Forall (fun entry => readable (snd entry)) before
    /\ unreadable data err
    /\ fst (Send c m w) = Some text
    /\ Contains text name
    /\ Contains text err
    /\ requests (snd (Send c m w)) = requests w.
Proof.
  intros Hpass Hkey Hex.
  destruct (first_unreadable _ Hex)
    as (before & name & data & after & err & Hsplit & Hbefore & Hdata).
  destruct (buildPayload_unreadable m (rand w) _ _ _ _ _ Hsplit Hbefore Hdata)
    as (what & Hfail).
  exists before, name, data, after, err, (wrapNamedf what name err).
  rewrite Send_passes_through by done.
  rewrite (send_not_built _ _ _ _ _ Hkey Hfail). cbn.
  repeat split; try done.
  - unfold wrapNamedf. do 2 apply Contains_append_r.
    apply Contains_append_l, Contains_refl.
  - unfold wrapNamedf. do 4 apply Contains_append_r. apply Contains_refl.
Qed.

(** C6: when every attachment stream can be read, the payload is built, its
    attachment list has one entry per regular and per inline attachment, in
    that order, and the content of each entry is standard base64 that
    decodes to exactly the bytes read from the stream. *)
Theorem attachments_encoded (m : Message) (r : RandState) :
  Forall (fun entry => readable (snd entry))
    (Attachments m ++ InlineAttachments m) ->
  exists p r',
    buildPayload m r = (Ok p, r')
    /\ length (attachments p)
       = (length (Attachments m) + length (InlineAttachments m))%nat
    /\ Forall2 encodes (Attachments m ++ InlineAttachments m) (attachments p).
Proof.
  intros Hall.
  destruct (buildPayload_readable m r Hall) as (p & Hbuild & Henc).
  exists p, (snd (customHeaders m r)). split; [done|]. split; [|done].
  apply Forall2_length in Henc. by rewrite <- Henc, length_app.
Qed.

(** C7: a non-empty [Text] goes into the payload unchanged; with an empty
    [Text] the payload text is the plain text derived from the HTML when the
    conversion succeeds and stays empty when it fails; and a failed
    conversion does not make [Send] fail: where the key is set and the
    payload marshals and is accepted, [Send] returns nil. *)
Theorem text_content_fallback (c : ResendClient) (m : Message) (w : World)
    (p : resendPayload) (r' : RandState) :
  buildPayload m (rand w) = (Ok p, r') ->
  (Text m <> "" -> text p = Text m)
  /\ (Text m = "" ->
      forall plain, html2Text (HTML m) = Ok plain -> text p = plain)
  /\ (Text m = "" ->
      forall err, html2Text (HTML m) = Err err ->
        text p = ""
        /\ (APIKey c <> "" -> passesThrough c -> delivers c ->
            fst (Send c m w) = None)).
Proof.
  intros Hbuild.
  pose proof (buildPayload_built _ _ _ _ Hbuild) as Hall.
  apply buildPayload_headers in Hbuild as (_ & _ & Htext).
  rewrite Htext. unfold textContent. split; [|split].
  - intros Hne. by rewrite eqb_empty_false.
  - intros -> plain ->. done.
  - intros -> err ->. split; [done|].
    intros Hkey Hpass Hdel. rewrite Send_passes_through by done.
    by apply send_delivers.
Qed.

(** C8 (as amended): the caller's headers are copied into the payload under
    the same keys; and when the header map is not empty, has no key equal to
    [Message-ID] up to case and the sender address has exactly one [@], the
    payload headers are that copy plus a [Message-ID] of the form
    [<token@domain>], where the token is what the pseudo-random string
    generator returns for length 15 and the domain is the substring after
    the [@] of the sender address. *)
Theorem message_id_format (m : Message) (r r' : RandState)
    (p : resendPayload) :
  buildPayload m r = (Ok p, r') ->
  (forall k v, Headers m !! k = Some v ->
     exists hs, headers p = Some hs /\ hs !! k = Some v)
  /\ (Headers m <> ∅ ->
      lacksMessageId (Headers m) ->
      countByte "@" (Address (From m)) = 1%nat ->
      exists before domain,
        Address (From m) = before +:+ "@" +:+ domain
        /\ countByte "@" before = 0%nat
        /\ countByte "@" domain = 0%nat
        /\ headers p =
             Some (<["Message-ID" :=
                      "<" +:+ fst (PseudorandomString 15 r) +:+ "@"
                      +:+ domain +:+ ">"]> (Headers m))
        /\ r' = snd (PseudorandomString 15 r)).
Proof.
  intros Hbuild. apply buildPayload_headers in Hbuild as (Hhdrs & Hrand & _).
  split.
  - intros k v Hkv. rewrite Hhdrs. by apply customHeaders_copies.
  - intros Hne Hlacks Hone.
    destruct (Split_once _ _ Hone)
      as (before & domain & Hsplit & Haddr & Hb & Hd).
    rewrite (customHeaders_default m r before domain) in Hhdrs, Hrand by done.
    by exists before, domain.
Qed.

(** C9: when the sender address has no [@] or more than one, and the headers
    have no key equal to [Message-ID] up to case, the payload headers are the
    caller's headers and nothing else (nil when there are none), the random
    source is not touched, no payload header is a [Message-ID], and nothing
    fails for that: where the key is set, the attachments can be read and
    the payload marshals and is accepted, [Send] returns nil. *)
Theorem no_message_id_without_domain (c : ResendClient) (m : Message)
    (w : World) :
  countByte "@" (Address (From m)) <> 1%nat ->
  lacksMessageId (Headers m) ->
  customHeaders m (rand w) =
    (if (0 <? size (Headers m))%nat then Some (Headers m) else None, rand w)
  /\ (forall p r', buildPayload m (rand w) = (Ok p, r') ->
        r' = rand w
        /\ forall hs k v, headers p = Some hs -> hs !! k = Some v ->
             Headers m !! k = Some v /\ EqualFold k "Message-ID" = false)
  /\ (APIKey c <> "" -> passesThrough c -> delivers c ->
      Forall (fun entry => readable (snd entry))
        (Attachments m ++ InlineAttachments m) ->
      fst (Send c m w) = None).
Proof.
  intros Hcount Hlacks.
  assert (Hplain : customHeaders m (rand w) =
            (if (0 <? size (Headers m))%nat then Some (Headers m) else None,
             rand w)).
  { apply customHeaders_plain. right. right.
    rewrite length_Split. lia. }
  split; [done|]. split.
  - intros p r' Hbuild.
    apply buildPayload_headers in Hbuild as (Hhdrs & Hrand & _).
    rewrite Hplain in Hhdrs, Hrand. cbn [fst snd] in Hhdrs, Hrand.
    split; [done|].
    intros hs k v Hp Hk. rewrite Hhdrs in Hp.
    destruct (0 <? size (Headers m))%nat; [|discriminate].
    injection Hp as <-. split; [done|]. by apply (Hlacks k v).
  - intros Hkey Hpass Hdel Hall. rewrite Send_passes_through by done.
    by apply send_delivers.
Qed.


(** * Further properties of the client *)

(** ** What [send] puts on the wire *)

Lemma prepareAttachment_Err (name : string) (data : Reader) (err : string) :
  prepareAttachment name data = Err err <-> unreadable data err.
Proof.
  split; [|apply prepareAttachment_unreadable].
  unfold prepareAttachment, unreadable.
  destruct (detectReaderMimeType data) as [[r mimeType]|e] eqn:Hdetect.
  - unfold ReadAll. cbn. destruct (failure r) as [e|] eqn:Hread; [|done].
    intros [= ->]. right. by exists r, mimeType.
  - intros [= ->]. by left.
Qed.







(** ** Which attachment error is reported *)

(** X5: the regular attachments are prepared before the inline ones, each
    list in order, and the first stream that cannot be read ends [send]:
    the error is "failed to prepare attachment NAME: ERR" for a regular
    attachment, whatever the inline attachments are, and "failed to prepare
    inline attachment NAME: ERR" for an inline one once every regular
    attachment was read; in both cases no request is sent. *)
Theorem first_attachment_error (c : ResendClient) (m : Message) (w : World)
    (before after : list (string * Reader)) (name : string) (data : Reader)
    (err : string) :
  APIKey c <> "" ->
  Forall (fun entry => readable (snd entry)) before ->
  unreadable data err ->
  (Attachments m = before ++ (name, data) :: after ->
   fst (send c m w)
     = Some ("failed to prepare attachment " +:+ name +:+ ": " +:+ err)
   /\ requests (snd (send c m w)) = requests w)
  /\ (Forall (fun entry => readable (snd entry)) (Attachments m) ->
      InlineAttachments m = before ++ (name, data) :: after ->
      fst (send c m w)
        = Some ("failed to prepare inline attachment " +:+ name +:+ ": "
                +:+ err)
      /\ requests (snd (send c m w)) = requests w).
Proof.
  intros Hkey Hbefore Hdata. split.
  - intros Hregular.
    assert (Hbuild : fst (buildPayload m (rand w))
                     = Err (wrapNamedf "failed to prepare attachment"
                              name err)).
    { unfold buildPayload. destruct (customHeaders m (rand w)) as [hdrs r1].
      rewrite attachment_guard by (by intros ->).
      rewrite Hregular.
      by rewrite (appendAttachments_unreadable _ before _ name data err). }
    destruct (buildPayload m (rand w)) as [built r] eqn:Hb. cbn in Hbuild.
    subst built. by rewrite (send_not_built _ _ _ _ _ Hkey Hb).
  - intros Hregular Hinline.
    assert (Hbuild : fst (buildPayload m (rand w))
                     = Err (wrapNamedf "failed to prepare inline attachment"
                              name err)).
    { unfold buildPayload. destruct (customHeaders m (rand w)) as [hdrs r1].
      rewrite attachment_guard by (by intros ->).
      destruct (appendAttachments_readable "failed to prepare attachment"
                  (Attachments m) [] Hregular) as (regular & -> & _).
      rewrite attachment_guard by (by intros ->).
      rewrite Hinline.
      by rewrite (appendAttachments_unreadable _ before _ name data err). }
    destruct (buildPayload m (rand w)) as [built r] eqn:Hb. cbn in Hbuild.
    subst built. by rewrite (send_not_built _ _ _ _ _ Hkey Hb).
Qed.

(** ** The caller's headers *)

(** On ASCII bytes [EqualFold] compares the lower-cased strings. *)
Lemma EqualFold_ASCII (s t : string) :
  allBytes isASCII s = true ->
  EqualFold s t = String.eqb (lowerASCII s) (lowerASCII t).
Proof.
  revert s. induction t as [|c t IH]; intros [|a s]; cbn; try done.
  intros Hascii. apply andb_true_iff in Hascii as [Ha Hs].
  unfold isASCII in Ha. rewrite Ha, (IH s Hs).
  by destruct (Ascii.eqb (toLower a) (toLower c)).
Qed.

Lemma not_lacksMessageId (hs : gmap string string) (k v : string) :
  hs !! k = Some v -> EqualFold k "Message-ID" = true -> ~ lacksMessageId hs.
Proof.
  intros Hk Hfold Hlacks. specialize (Hlacks k v Hk). cbn in Hlacks.
  congruence.
Qed.

(** X6: a message id that the caller supplies under any ASCII letter case
    of the key ([Message-ID], [message-id], ...) is respected: the payload
    headers are exactly the caller's headers, no default message id is
    added and the pseudo-random source is not used. *)
Theorem caller_message_id_respected (m : Message) (r r' : RandState)
    (p : resendPayload) (k v : string) :
  Headers m !! k = Some v ->
  allBytes isASCII k = true ->
  lowerASCII k = "message-id" ->
  buildPayload m r = (Ok p, r') ->
  headers p = Some (Headers m) /\ r' = r.
Proof.
  intros Hk Hascii Hlower Hbuild.
  assert (Hfold : EqualFold k "Message-ID" = true).
  { rewrite EqualFold_ASCII by done. rewrite Hlower. reflexivity. }
  apply buildPayload_headers in Hbuild as (Hhdrs & Hrand & _).
  rewrite customHeaders_plain in Hhdrs, Hrand
    by (right; left; by eapply not_lacksMessageId).
  cbn [fst snd] in Hhdrs, Hrand. split; [|done].
  assert (Hne : Headers m <> ∅) by (intros Hempty; by rewrite Hempty in Hk).
  apply size_pos_nonempty in Hne. by rewrite Hne in Hhdrs.
Qed.

(** X7: the payload headers never lose or overwrite a header of the caller,
    and the only key [send] ever adds is [Message-ID]; when the caller gave
    headers and the sender address has exactly one [@], the payload headers
    always carry a message id, the caller's or the default one. *)
Theorem payload_headers_extend_callers (m : Message) (r r' : RandState)
    (p : resendPayload) :
  Headers m <> ∅ ->
  buildPayload m r = (Ok p, r') ->
  exists hs,
    headers p = Some hs
    /\ Headers m ⊆ hs
    /\ (forall k v, hs !! k = Some v ->
          Headers m !! k = Some v
          \/ (k = "Message-ID" /\ Headers m !! k = None))
    /\ (countByte "@" (Address (From m)) = 1%nat ->
        exists k v, hs !! k = Some v /\ EqualFold k "Message-ID" = true).
Proof.
  intros Hne Hbuild.
  apply buildPayload_headers in Hbuild as (Hhdrs & _ & _).
  destruct (copyHeaders_spec (Headers m)) as [_ Hflag].
  destruct (fst (copyHeaders (Headers m))) eqn:Hhas.
  - (* the caller gave a message id *)
    assert (Hnot : ~ lacksMessageId (Headers m))
      by (intros Hl; apply Hflag in Hl; discriminate).
    rewrite customHeaders_plain in Hhdrs by (right; by left).
    cbn [fst] in Hhdrs. pose proof Hne as Hsize.
    apply size_pos_nonempty in Hsize. rewrite Hsize in Hhdrs.
    exists (Headers m). split; [done|]. split; [done|].
    split; [by left|]. intros _.
    apply map_not_Forall in Hnot; [|intros k v; apply _].
    destruct Hnot as (k & v & Hk & Hfold). exists k, v. split; [done|].
    by destruct (EqualFold k "Message-ID").
  - assert (Hlacks : lacksMessageId (Headers m)) by (by apply Hflag).
    destruct (decide (countByte "@" (Address (From m)) = 1%nat))
      as [Hone|Hcount].
    + destruct (Split_once _ _ Hone) as (before & domain & Hsplit & _).
      rewrite (customHeaders_default m r before domain) in Hhdrs by done.
      cbn [fst] in Hhdrs.
      assert (Hfresh : Headers m !! "Message-ID" = None).
      { destruct (Headers m !! "Message-ID") as [v|] eqn:Hv; [|done].
        specialize (Hlacks "Message-ID" v Hv). cbn in Hlacks. discriminate. }
      eexists. split; [exact Hhdrs|]. split; [by apply insert_subseteq|].
      split.
      * intros k v Hkv. destruct (decide (k = "Message-ID")) as [->|Hk].
        { by right. }
        left. by rewrite lookup_insert_ne in Hkv.
      * intros _. eexists "Message-ID", _.
        split; [apply lookup_insert_eq | reflexivity].
    + rewrite customHeaders_plain in Hhdrs
        by (right; right; rewrite length_Split; lia).
      cbn [fst] in Hhdrs. pose proof Hne as Hsize.
      apply size_pos_nonempty in Hsize. rewrite Hsize in Hhdrs.
      exists (Headers m). split; [done|]. split; [done|].
      split; [by left | done].
Qed.

(** ** The encoded content *)

Lemma encodeSextet_isBase64Char (x : sextet) :
  isBase64Char (encodeSextet x) = true.
Proof.
  destruct x as [[[[[h5 h4] h3] h2] h1] h0].
  destruct h5, h4, h3, h2, h1, h0; reflexivity.
Qed.

Lemma base64Encode_chars (src : string) :
  allBytes isBase64Char (base64Encode src) = true.
Proof.
  induction src as [| a | a b | a b c rest IH] using string_ind3.
  - reflexivity.
  - destruct a as [a0 a1 a2 a3 a4 a5 a6 a7].
    cbn [base64Encode allBytes]. by rewrite !encodeSextet_isBase64Char.
  - destruct a as [a0 a1 a2 a3 a4 a5 a6 a7], b as [b0 b1 b2 b3 b4 b5 b6 b7].
    cbn [base64Encode allBytes]. by rewrite !encodeSextet_isBase64Char.
  - destruct a as [a0 a1 a2 a3 a4 a5 a6 a7], b as [b0 b1 b2 b3 b4 b5 b6 b7],
      c as [c0 c1 c2 c3 c4 c5 c6 c7].
    cbn [base64Encode allBytes]. by rewrite !encodeSextet_isBase64Char, IH.
Qed.

Lemma base64Encode_length (src : string) :
  String.length (base64Encode src)
  = (4 * ((String.length src + 2) / 3))%nat.
Proof.
  induction src as [| a | a b | a b c rest IH] using string_ind3.
  - reflexivity.
  - by destruct a.
  - by destruct a, b.
  - destruct a as [a0 a1 a2 a3 a4 a5 a6 a7], b as [b0 b1 b2 b3 b4 b5 b6 b7],
      c as [c0 c1 c2 c3 c4 c5 c6 c7].
    cbn [base64Encode String.length]. rewrite IH.
    replace (S (S (S (String.length rest))) + 2)%nat
      with (String.length rest + 2 + 1 * 3)%nat by lia.
    rewrite Nat.div_add by lia. lia.
Qed.

(** Encoding is injective: different bytes give different content. *)
Lemma base64Encode_inj (s t : string) :
  base64Encode s = base64Encode t -> s = t.
Proof.
  intros Heq. apply (f_equal base64Decode) in Heq.
  rewrite !base64Decode_Encode in Heq. by injection Heq.
Qed.

(** X8: an attachment is prepared exactly when its stream can be sniffed
    and read to the end; the entry then carries the given file name and the
    sniffed type, its content is made of characters of the base64 alphabet
    and padding only, is four characters long for every three bytes read,
    rounded up, and two attachments have the same content only when the
    same bytes were read.  Otherwise the error of the sniffer, or else of
    the read, is returned as it is. *)
Theorem prepareAttachment_outcome (name : string) (data : Reader) :
  (forall a, prepareAttachment name data = Ok a ->
     filename a = name
     /\ exists r,
          detectReaderMimeType data = Ok (r, content_type a)
          /\ failure r = None
          /\ allBytes isBase64Char (content a) = true
          /\ String.length (content a)
             = (4 * ((String.length (delivered r) + 2) / 3))%nat
          /\ forall name' data' a' r',
               prepareAttachment name' data' = Ok a' ->
               detectReaderMimeType data' = Ok (r', content_type a') ->
               content a' = content a -> delivered r' = delivered r)
  /\ (forall err, prepareAttachment name data = Err err <->
        detectReaderMimeType data = Err err
        \/ exists r mimeType,
             detectReaderMimeType data = Ok (r, mimeType)
             /\ failure r = Some err).
Proof.
  split; [|intros err; apply prepareAttachment_Err].
  intros a. unfold prepareAttachment.
  destruct (detectReaderMimeType data) as [[r mimeType]|e] eqn:Hdetect;
    [|done].
  unfold ReadAll. destruct (failure r) eqn:Hread; [done|].
  intros [= <-]. cbn. split; [done|]. exists r.
  split; [done|]. split; [done|].
  split; [apply base64Encode_chars|]. split; [apply base64Encode_length|].
  intros name' data' a' r'. unfold prepareAttachment.
  destruct (detectReaderMimeType data') as [[r2 mimeType2]|e2]; [|done].
  unfold ReadAll. destruct (failure r2); [done|].
  intros [= <-]. cbn. intros [= <-] Hcontent.
  by apply base64Encode_inj.
Qed.

(** ** The hook accessor *)

(** X9: [OnSend] installs an empty hook on first use and afterwards hands
    out the same hook; it keeps the API key, and asking for the hook does
    not change what [Send] does. *)
Theorem OnSend_keeps_Send (c : ResendClient) :
  OnSend (fst (OnSend c)) = (fst (OnSend c), snd (OnSend c))
  /\ onSend (fst (OnSend c)) = Some (snd (OnSend c))
  /\ APIKey (fst (OnSend c)) = APIKey c
  /\ (onSend c = None -> handlers (snd (OnSend c)) = [])
  /\ (forall h, onSend c = Some h -> OnSend c = (c, h))
  /\ forall m w, Send (fst (OnSend c)) m w = Send c m w.
Proof.
  unfold OnSend. destruct (onSend c) as [h|] eqn:Hhook; cbn.
  - rewrite Hhook. repeat split; try done. by intros h' [= <-].
  - repeat split; try done.
    intros m w. unfold Send. cbn. by rewrite Hhook.
Qed.

(** X10: [Send] hands to [send] the message of the event as the observers
    left it, not the message it was called with: through observers that
    forward, [Send] is [send] on the message they made. *)
Theorem Send_sends_forwarded_message (c : ResendClient) (h : Hook)
    (fs : list (SendEvent -> SendEvent)) (m : Message) (w : World) :
  onSend c = Some h ->
  handlers h = map forwarding fs ->
  Send c m w = send c (EventMessage (forwarded fs m)) w.
Proof.
  intros Hhook Hchain. unfold Send, Trigger. rewrite Hhook, Hchain.
  rewrite <- (app_nil_r (map forwarding fs)), compose_forwarding. done.
Qed.

End Properties.

(** * The statements on concrete messages *)

Lemma customHeader_nonempty : customHeader <> ∅.
Proof. apply insert_non_empty. Qed.

Lemma customHeader_lacksMessageId : lacksMessageId customHeader.
Proof.
  apply map_Forall_insert_2; [reflexivity | apply map_Forall_empty].
Qed.

#[local] Existing Instance sampleCollaborators.

(** Runs [buildPayload] and offers its payload and random state as the
    two witnesses of the goal. *)
Ltac run_buildPayload m r :=
  let v := eval vm_compute in (buildPayload m r) in
  match v with
  | (Ok ?p, ?r') => exists p, r'
  end.

Ltac by_running := vm_compute; reflexivity.

Lemma missing_key_no_request_witness :
  APIKey (interceptedClient "" None) = ""
  /\ (send (interceptedClient "" None) scenarioMessage sampleWorld
      = (Some "resend API key is required", sampleWorld)
      /\ requests (snd (Send (interceptedClient "" None) scenarioMessage
                          sampleWorld))
         = requests sampleWorld
      /\ (passesThrough (interceptedClient "" None) ->
          Send (interceptedClient "" None) scenarioMessage sampleWorld
          = (Some "resend API key is required", sampleWorld))).
Proof.
  split; [reflexivity|].
  apply (missing_key_no_request (interceptedClient "" None)). reflexivity.
Defined.

(** C1 as stated fails: with an empty API key and an observer that returns
    nil without forwarding, [Send] returns nil, not an error. *)
Lemma missing_key_intercepted :
  APIKey (interceptedClient "" None) = ""
  /\ fst (Send (interceptedClient "" None) scenarioMessage sampleWorld) = None.
Proof. split; reflexivity. Qed.




Lemma response_classification_witness :
  exists resp w',
    passesThrough rejectedClient
    /\ transmit rejectedClient scenarioMessage sampleWorld = (Ok resp, w')
    /\ StatusCode resp = 401
    /\ delivered (Body resp) = invalidKeyBody
    /\ exists detail,
         Send rejectedClient scenarioMessage sampleWorld
           = (Some (apiError 401 detail), w')
         /\ detail = "Invalid API key"
         /\ Contains (apiError 401 detail) "401"
         /\ Contains (apiError 401 detail) "Invalid API key".
Proof.
  let v := eval vm_compute in
             (transmit rejectedClient scenarioMessage sampleWorld) in
  match v with
  | (Ok ?resp, ?w') => exists resp, w'
  end.
  split; [exact I|]. split; [by_running|].
  split; [reflexivity|]. split; [reflexivity|].
  match goal with
  | |- context [Send _ _ _ = (_, ?w')] =>
      destruct (@response_classification sampleCollaborators rejectedClient
                  scenarioMessage sampleWorld w'
                  {| StatusCode := 401;
                     Body := {| delivered := invalidKeyBody;
                                failure := None |} |}
                  I ltac:(by_running))
        as [_ Hrejected]
  end.
  destruct Hrejected as (detail & Hsend & Hcode & Hdetail & Hmessage & _);
    [cbn; lia|].
  assert (Hd : detail = "Invalid API key").
  { apply (Hmessage {| statusCode := 0; message := "Invalid API key";
                       name := "" |}); [by_running | discriminate]. }
  subst detail. exists "Invalid API key". cbn [StatusCode] in *.
  split; [exact Hsend|]. split; [reflexivity|].
  split; [exact Hcode | exact Hdetail].
Defined.

Lemma attachment_failure_aborts_witness :
  passesThrough keyedClient
  /\ APIKey keyedClient <> ""
  /\ unreadable brokenReader "unexpected EOF"
  /\ exists before name data after err text,
       Attachments brokenMessage ++ InlineAttachments brokenMessage
         = before ++ (name, data) :: after
       /\ Forall (fun entry => readable (snd entry)) before
       /\ unreadable data err
       /\ fst (Send keyedClient brokenMessage sampleWorld) = Some text
       /\ Contains text name
       /\ Contains text err
       /\ requests (snd (Send keyedClient brokenMessage sampleWorld))
          = requests sampleWorld.
Proof.
  split; [exact I|]. split; [discriminate|].
  assert (Hbroken : unreadable brokenReader "unexpected EOF")
    by (left; reflexivity).
  split; [exact Hbroken|].
  apply (@attachment_failure_aborts sampleCollaborators keyedClient
           brokenMessage sampleWorld I); [discriminate|].
  apply Exists_cons_tl, Exists_cons_hd. exists "unexpected EOF". exact Hbroken.
Defined.

Lemma attachments_encoded_witness :
  Forall (fun entry => readable (snd entry))
    (Attachments attachedMessage ++ InlineAttachments attachedMessage)
  /\ exists p r',
       buildPayload attachedMessage 2026%N = (Ok p, r')
       /\ length (attachments p)
          = (length (Attachments attachedMessage)
             + length (InlineAttachments attachedMessage))%nat
       /\ Forall2 encodes
            (Attachments attachedMessage ++ InlineAttachments attachedMessage)
            (attachments p).
Proof.
  assert (Hall : Forall (fun entry => readable (snd entry))
                   (Attachments attachedMessage
                    ++ InlineAttachments attachedMessage)).
  { repeat constructor; eexists _, _; split; reflexivity. }
  split; [exact Hall|].
  exact (@attachments_encoded sampleCollaborators attachedMessage 2026%N Hall).
Defined.

Lemma text_content_fallback_witness :
  exists p r',
    buildPayload unconvertibleMessage (rand sampleWorld) = (Ok p, r')
    /\ Text unconvertibleMessage = ""
    /\ html2Text (HTML unconvertibleMessage) = Err "unexpected end of input"
    /\ APIKey keyedClient <> ""
    /\ passesThrough keyedClient
    /\ delivers keyedClient
    /\ text p = ""
    /\ fst (Send keyedClient unconvertibleMessage sampleWorld) = None.
Proof.
  run_buildPayload unconvertibleMessage (rand sampleWorld).
  assert (Hdelivers : delivers keyedClient).
  { split.
    - intros p. eexists. reflexivity.
    - intros earlier jsonPayload. eexists. split; [reflexivity|]. cbn. lia. }
  split; [by_running|]. split; [reflexivity|]. split; [reflexivity|].
  split; [discriminate|]. split; [exact I|]. split; [exact Hdelivers|].
  match goal with
  | |- text ?p = _ /\ _ =>
      destruct (@text_content_fallback sampleCollaborators keyedClient
                  unconvertibleMessage sampleWorld p 2026%N
                  ltac:(by_running))
        as (_ & _ & Hfails)
  end.
  destruct (Hfails eq_refl "unexpected end of input" eq_refl)
    as [Hempty Hsent].
  split; [exact Hempty|]. apply Hsent; [discriminate | exact I | exact Hdelivers].
Defined.

Lemma message_id_format_witness :
  exists p r',
    buildPayload headedMessage 2026%N = (Ok p, r')
    /\ Headers headedMessage <> ∅
    /\ lacksMessageId (Headers headedMessage)
    /\ countByte "@" (Address (From headedMessage)) = 1%nat
    /\ headers p
       = Some (<["Message-ID" :=
                 "<" +:+ fst (pseudorandomString 15 2026%N)
                 +:+ "@example.com>"]> customHeader)
    /\ (exists hs, headers p = Some hs
                   /\ hs !! "X-Custom-Header" = Some "custom-value").
Proof.
  run_buildPayload headedMessage 2026%N.
  split; [by_running|].
  split; [exact customHeader_nonempty|].
  split; [exact customHeader_lacksMessageId|].
  split; [by_running|].
  match goal with
  | |- headers ?p = _ /\ _ =>
      destruct (@message_id_format sampleCollaborators headedMessage 2026%N
                  28467%N p ltac:(by_running))
        as [Hcopied Hdefault]
  end.
  split.
  - destruct (Hdefault customHeader_nonempty customHeader_lacksMessageId
                ltac:(by_running))
      as (before & domain & _ & _ & _ & Hhdrs & _).
    by_running.
  - apply Hcopied. by_running.
Defined.

(** C8 as stated fails on the size of the token: with a generator that
    returns as many characters as it is asked for, the token of the
    synthesized [Message-ID] has 15 bytes, so it cannot carry 20 bytes of
    entropy. *)
Lemma message_id_token_has_15_bytes :
  exists p hs value,
    fst (buildPayload headedMessage 2026%N) = Ok p
    /\ headers p = Some hs
    /\ hs !! "Message-ID" = Some value
    /\ (forall token,
          value = "<" +:+ token +:+ "@" +:+ "example.com" +:+ ">" ->
          String.length token = 15%nat)
    /\ ~ (exists token,
            value = "<" +:+ token +:+ "@" +:+ "example.com" +:+ ">"
            /\ (20 <= String.length token)%nat).
Proof.
  let v := eval vm_compute in (buildPayload headedMessage 2026%N) in
  match v with
  | (Ok ?p, _) =>
      exists p;
      let h := eval vm_compute in (headers p) in
      match h with
      | Some ?hs =>
          exists hs;
          let x := eval vm_compute in (hs !! "Message-ID") in
          match x with Some ?value => exists value end
      end
  end.
  split; [by_running|]. split; [by_running|]. split; [by_running|].
  assert (Hlen : forall token,
            "<" +:+ fst (pseudorandomString 15 2026%N) +:+ "@example.com>"
              = "<" +:+ token +:+ "@" +:+ "example.com" +:+ ">" ->
            String.length token = 15%nat).
  { intros token Heq. apply (f_equal String.length) in Heq.
    rewrite !length_append in Heq.
    change (String.length (fst (pseudorandomString 15 2026%N))) with 15%nat
      in Heq.
    cbn in Heq. lia. }
  split; [exact Hlen|].
  intros (token & Hvalue & Hlong). apply Hlen in Hvalue. lia.
Qed.

Lemma no_message_id_without_domain_witness :
  countByte "@" (Address (From twoAtMessage)) <> 1%nat
  /\ lacksMessageId (Headers twoAtMessage)
  /\ APIKey keyedClient <> ""
  /\ delivers keyedClient
  /\ customHeaders twoAtMessage (rand sampleWorld)
     = (Some customHeader, rand sampleWorld)
  /\ fst (Send keyedClient twoAtMessage sampleWorld) = None.
Proof.
  assert (Hcount : countByte "@" (Address (From twoAtMessage)) <> 1%nat)
    by (vm_compute; discriminate).
  assert (Hdelivers : delivers keyedClient).
  { split.
    - intros p. eexists. reflexivity.
    - intros earlier jsonPayload. eexists. split; [reflexivity|]. cbn. lia. }
  split; [exact Hcount|]. split; [exact customHeader_lacksMessageId|].
  split; [discriminate|]. split; [exact Hdelivers|].
  destruct (@no_message_id_without_domain sampleCollaborators keyedClient
              twoAtMessage sampleWorld Hcount customHeader_lacksMessageId)
    as (Hplain & _ & Hsent).
  split; [exact Hplain|].
  apply Hsent; [discriminate | exact I | exact Hdelivers | constructor].
Defined.


(** ** The further properties on concrete messages *)




Lemma first_attachment_error_witness :
  APIKey keyedClient <> ""
  /\ Forall (fun entry => readable (snd entry)) [("test.txt", textReader)]
  /\ unreadable brokenReader "unexpected EOF"
  /\ Attachments brokenMessage
     = [("test.txt", textReader)] ++ ("broken.bin", brokenReader) :: []
  /\ fst (send keyedClient brokenMessage sampleWorld)
     = Some ("failed to prepare attachment " +:+ "broken.bin" +:+ ": "
             +:+ "unexpected EOF")
  /\ requests (snd (send keyedClient brokenMessage sampleWorld))
     = requests sampleWorld.
Proof.
  assert (Hkey : APIKey keyedClient <> "") by discriminate.
  assert (Hbefore : Forall (fun entry => readable (snd entry))
                      [("test.txt", textReader)]).
  { repeat constructor. eexists _, _. split; reflexivity. }
  assert (Hbroken : unreadable brokenReader "unexpected EOF")
    by (left; reflexivity).
  split; [exact Hkey|]. split; [exact Hbefore|]. split; [exact Hbroken|].
  split; [reflexivity|].
  destruct (@first_attachment_error sampleCollaborators keyedClient
              brokenMessage sampleWorld [("test.txt", textReader)] []
              "broken.bin" brokenReader "unexpected EOF"
              Hkey Hbefore Hbroken) as [Hregular _].
  exact (Hregular eq_refl).
Defined.

Lemma caller_message_id_respected_witness :
  exists p r',
    Headers callerIdMessage !! "message-id" = Some "<caller@example.com>"
    /\ allBytes isASCII "message-id" = true
    /\ lowerASCII "message-id" = "message-id"
    /\ buildPayload callerIdMessage 2026%N = (Ok p, r')
    /\ headers p = Some (Headers callerIdMessage)
    /\ r' = 2026%N.
Proof.
  run_buildPayload callerIdMessage 2026%N.
  split; [by_running|]. split; [reflexivity|]. split; [reflexivity|].
  split; [by_running|].
  eapply (@caller_message_id_respected sampleCollaborators callerIdMessage
            2026%N _ _ "message-id" "<caller@example.com>");
    [by_running | reflexivity | reflexivity | by_running].
Defined.

Lemma payload_headers_extend_callers_witness :
  exists p r',
    Headers headedMessage <> ∅
    /\ buildPayload headedMessage 2026%N = (Ok p, r')
    /\ countByte "@" (Address (From headedMessage)) = 1%nat
    /\ exists hs,
         headers p = Some hs
         /\ Headers headedMessage ⊆ hs
         /\ exists k v, hs !! k = Some v /\ EqualFold k "Message-ID" = true.
Proof.
  run_buildPayload headedMessage 2026%N.
  split; [exact customHeader_nonempty|]. split; [by_running|].
  split; [by_running|].
  match goal with
  | |- context [headers ?p] =>
      destruct (@payload_headers_extend_callers sampleCollaborators
                  headedMessage 2026%N 28467%N p customHeader_nonempty
                  ltac:(by_running))
        as (hs & Hhs & Hsub & _ & Hid)
  end.
  exists hs. split; [exact Hhs|]. split; [exact Hsub|].
  apply Hid. by_running.
Defined.

Lemma Send_sends_forwarded_message_witness :
  onSend rewritingClient = Some {| handlers := [forwarding rewriteText] |}
  /\ Text (EventMessage (forwarded [rewriteText] scenarioMessage))
     = "rewritten"
  /\ Send rewritingClient scenarioMessage sampleWorld
     = send rewritingClient
         (EventMessage (forwarded [rewriteText] scenarioMessage)) sampleWorld.
Proof.
  split; [reflexivity|]. split; [reflexivity|].
  exact (@Send_sends_forwarded_message sampleCollaborators rewritingClient
           {| handlers := [forwarding rewriteText] |} [rewriteText]
           scenarioMessage sampleWorld eq_refl eq_refl).
Defined.

Lemma prepareAttachment_outcome_witness :
  exists a,
    prepareAttachment "test.txt" textReader = Ok a
    /\ filename a = "test.txt"
    /\ content a = "dGVzdCBjb250ZW50"
    /\ exists r,
         detectReaderMimeType textReader = Ok (r, content_type a)
         /\ failure r = None
         /\ allBytes isBase64Char (content a) = true
         /\ String.length (content a)
            = (4 * ((String.length (delivered r) + 2) / 3))%nat.
Proof.
  destruct (@prepareAttachment_outcome sampleCollaborators "test.txt"
              textReader) as [Hok _].
  eexists. split; [reflexivity|].
  destruct (Hok _ eq_refl) as (Hname & r & Hdetect & Hread & Hchars & Hlen & _).
  split; [exact Hname|]. split; [reflexivity|].
  exists r. split; [exact Hdetect|]. split; [exact Hread|].
  split; [exact Hchars | exact Hlen].
Defined.

Lemma OnSend_keeps_Send_witness :
  onSend keyedClient = None
  /\ handlers (snd (OnSend keyedClient)) = []
  /\ onSend (fst (OnSend keyedClient)) = Some (snd (OnSend keyedClient))
  /\ Send (fst (OnSend keyedClient)) scenarioMessage sampleWorld
     = Send keyedClient scenarioMessage sampleWorld.
Proof.
  split; [reflexivity|].
  destruct (@OnSend_keeps_Send sampleCollaborators keyedClient)
    as (_ & Hhook & _ & Hempty & _ & Hsend).
  split; [exact (Hempty eq_refl)|]. split; [exact Hhook|]. apply Hsend.
Defined.

(** * Properties of the mail settings page *)

Module MailSettingsPageProperties.
Import MailSettingsPage.

(** ** The JSON copy *)

Lemma size_item (items : list JsValue) (x : JsValue) :
  x ∈ items ->
  (jsSize x <= foldr (fun x acc => jsSize x + acc)%nat 0%nat items)%nat.
Proof.
  induction 1 as [x items | x y items _ IH]; cbn; lia.
Qed.

Lemma size_prop (props : gmap string JsValue) (k : string) (x : JsValue) :
  props !! k = Some x -> (jsSize x <= sizeProps jsSize props)%nat.
Proof.
  unfold sizeProps. revert k x.
  apply (map_fold_weak_ind
           (fun (total : nat) (m : gmap string JsValue) =>
              forall k x, m !! k = Some x -> (jsSize x <= total)%nat)).
  - intros k x Hk. by rewrite lookup_empty in Hk.
  - intros i y m total Hfresh IH k x Hk.
    destruct (decide (i = k)) as [->|Hne].
    + rewrite lookup_insert_eq in Hk. injection Hk as ->. lia.
    + rewrite lookup_insert_ne in Hk by done. specialize (IH k x Hk). lia.
Qed.

(** Induction on a value through its items and properties. *)
Lemma JsValue_nested_ind (P : JsValue -> Prop) :
  P JsUndefined -> P JsNull -> (forall b, P (JsBool b)) ->
  (forall n, P (JsNumber n)) -> (forall s, P (JsString s)) ->
  (forall items props,
      Forall P items -> map_Forall (fun _ => P) props ->
      P (JsArray items props)) ->
  (forall props, map_Forall (fun _ => P) props -> P (JsObject props)) ->
  forall v, P v.
Proof.
  intros Hu Hn Hb Hz Hs Harr Hobj v.
  remember (jsSize v) as n eqn:Hsize. revert v Hsize.
  induction (lt_wf n) as [n _ IH]. intros v ->.
  destruct v as [| | b | z | s | items props | props]; auto.
  - apply Harr.
    + apply Forall_forall. intros x Hx.
      apply (IH (jsSize x)); [|done]. cbn.
      pose proof (size_item items x Hx). lia.
    + intros k x Hk. apply (IH (jsSize x)); [|done]. cbn.
      pose proof (size_prop props k x Hk). lia.
  - apply Hobj. intros k x Hk. apply (IH (jsSize x)); [|done]. cbn.
    pose proof (size_prop props k x Hk). lia.
Qed.

Lemma jsonCopy_defined (v : JsValue) : jsonCopy v <> JsUndefined.
Proof. by destruct v. Qed.

Lemma truthy_jsonCopy (v : JsValue) :
  v <> JsUndefined -> truthy (jsonCopy v) = truthy v.
Proof. by destruct v. Qed.

Lemma jsonCopy_object (props : gmap string JsValue) :
  jsonCopy (JsObject props) = JsObject (omap copiedProp props).
Proof. reflexivity. Qed.

Lemma optGet_jsonCopy_object (props : gmap string JsValue) (k : string) :
  truthy (optGet (jsonCopy (JsObject props)) k)
  = truthy (optGet (JsObject props) k).
Proof.
  rewrite jsonCopy_object. unfold optGet, get. cbn.
  rewrite lookup_omap. destruct (props !! k) as [x|]; cbn; [|done].
  destruct x; done.
Qed.

(** Copying a copy changes nothing. *)
Lemma jsonCopy_idempotent (v : JsValue) : jsonCopy (jsonCopy v) = jsonCopy v.
Proof.
  induction v as [| | b | n | s | items props IHitems _ | props IH]
    using JsValue_nested_ind; try done.
  - cbn. f_equal. rewrite map_map. apply map_ext_Forall.
    exact IHitems.
  - rewrite !jsonCopy_object. f_equal. apply map_eq. intros k.
    rewrite !lookup_omap. destruct (props !! k) as [x|] eqn:Hk; cbn; [|done].
    specialize (IH k x Hk). cbn in IH.
    destruct x; cbn; try done; cbn in IH; by rewrite IH.
Qed.

(** ** Reading and writing the form *)

Lemma get_formWith_meta (meta smtp resend provider : JsValue) :
  get (formWith meta smtp resend provider) "meta" = Some meta.
Proof. unfold get, formWith. by simplify_map_eq. Qed.

Lemma get_formWith_smtp (meta smtp resend provider : JsValue) :
  get (formWith meta smtp resend provider) "smtp" = Some smtp.
Proof. unfold get, formWith. by simplify_map_eq. Qed.

Lemma get_formWith_resend (meta smtp resend provider : JsValue) :
  get (formWith meta smtp resend provider) "resend" = Some resend.
Proof. unfold get, formWith. by simplify_map_eq. Qed.

Lemma get_formWith_provider (meta smtp resend provider : JsValue) :
  get (formWith meta smtp resend provider) "emailProvider" = Some provider.
Proof. unfold get, formWith. by simplify_map_eq. Qed.

Lemma set_formWith_provider (meta smtp resend provider x : JsValue) :
  set (formWith meta smtp resend provider) "emailProvider" x
  = Some (formWith meta smtp resend x).
Proof.
  unfold set, formWith. apply (f_equal Some), (f_equal JsObject), map_eq.
  intros k.
  rewrite !lookup_insert. repeat case_decide; simplify_eq; done.
Qed.

Lemma set_formWith_smtp (meta smtp resend provider x : JsValue) :
  set (formWith meta smtp resend provider) "smtp" x
  = Some (formWith meta x resend provider).
Proof.
  unfold set, formWith. apply (f_equal Some), (f_equal JsObject), map_eq.
  intros k.
  rewrite !lookup_insert. repeat case_decide; simplify_eq; done.
Qed.

Lemma set_formWith_resend (meta smtp resend provider x : JsValue) :
  set (formWith meta smtp resend provider) "resend" x
  = Some (formWith meta smtp x provider).
Proof.
  unfold set, formWith. apply (f_equal Some), (f_equal JsObject), map_eq.
  intros k.
  rewrite !lookup_insert. repeat case_decide; simplify_eq; done.
Qed.

Lemma get_truthy (v : JsValue) (k : string) :
  truthy v = true -> get v k = Some (optGet v k).
Proof. by destruct v. Qed.

Lemma truthy_orElse (a b : JsValue) :
  truthy b = true -> truthy (orElse a b) = true.
Proof. unfold orElse. by destruct (truthy a) eqn:E. Qed.

Lemma optGet_default_param (settings : JsValue) (k : string) :
  optGet match settings with
         | JsUndefined => JsObject ∅
         | _ => settings
         end k = optGet settings k.
Proof. by destruct settings. Qed.

(** Unfolds the statements of the page down to reads and writes of
    properties. *)
Ltac js_unfold :=
  unfold assignForm2, readForm2, readForm2Opt, readForm, assignForm, jsWhen,
    jsRead, jsTry, jsRet, jsWrite, jsBind.

(** Runs the reads and writes of the four properties of the form. *)
Ltac js_step :=
  repeat (progress
    (cbn [formSettings originalFormSettings setFormSettings
          setOriginalFormSettings setMaskSmtpPassword setMaskResendApiKey
          isLoading isSaving maskSmtpPassword maskResendApiKey
          showMoreOptions negb];
     rewrite ?get_formWith_meta, ?get_formWith_smtp, ?get_formWith_resend,
       ?get_formWith_provider, ?set_formWith_provider, ?set_formWith_smtp,
       ?set_formWith_resend)).

Lemma init_run (settings : JsValue) (st : Page) :
  objectOrFalsy (optGet settings "smtp") ->
  init settings st = (Some tt, initialised settings st).
Proof.
  intros Hsmtp.
  unfold init, initialised, formOf, chosenProvider, smtpWithAuthMethod.
  rewrite !optGet_default_param.
  set (meta0 := orElse (optGet settings "meta") (JsObject ∅)).
  set (smtp0 := orElse (optGet settings "smtp") (JsObject ∅)).
  set (resend0 := orElse (optGet settings "resend") (JsObject ∅)).
  set (prov0 := orElse (optGet settings "emailProvider") (JsString "")).
  assert (Hobj : exists props, smtp0 = JsObject props).
  { unfold smtp0, orElse. destruct Hsmtp as [-> | [props ->]]; by eexists. }
  destruct Hobj as [props Hprops].
  assert (Hsm : forall k, get smtp0 k = Some (optGet smtp0 k))
    by (intros k; by rewrite Hprops).
  assert (Hres : forall k, get resend0 k = Some (optGet resend0 k)).
  { intros k. apply get_truthy. by apply truthy_orElse. }
  js_unfold. js_step. rewrite !Hsm. js_step.
  destruct (truthy (optGet smtp0 "enabled") && negb (truthy prov0));
    js_step;
    match goal with
    | |- context [truthy (optGet resend0 "enabled") && negb (truthy ?p)] =>
        destruct (truthy (optGet resend0 "enabled") && negb (truthy p))
    end;
    js_step; rewrite ?Hsm; js_step;
    destruct (truthy (optGet smtp0 "authMethod")) eqn:Hauth;
    js_step; rewrite ?Hsm; js_step; try reflexivity.
  all: rewrite Hprops; cbn [set default]; js_step; reflexivity.
Qed.

Lemma optGet_object (props : gmap string JsValue) (k : string) :
  optGet (JsObject props) k = default JsUndefined (props !! k).
Proof. reflexivity. Qed.

Lemma optGet_orElse_object (v : JsValue) (k : string) :
  optGet (orElse v (JsObject ∅)) k = optGet v k.
Proof.
  unfold orElse. destruct (truthy v) eqn:Hv; [done|].
  destruct v as [| | [] | n | s | |]; try done.
Qed.

Lemma optGet_formWith (meta smtp resend provider : JsValue) :
  optGet (formWith meta smtp resend provider) "meta" = meta
  /\ optGet (formWith meta smtp resend provider) "smtp" = smtp
  /\ optGet (formWith meta smtp resend provider) "resend" = resend
  /\ optGet (formWith meta smtp resend provider) "emailProvider" = provider.
Proof.
  unfold optGet.
  by rewrite get_formWith_meta, get_formWith_smtp, get_formWith_resend,
    get_formWith_provider.
Qed.

(** The provider is a truthy value or the empty string. *)
Lemma chosenProvider_falsy (settings : JsValue) :
  truthy (chosenProvider settings) = false ->
  chosenProvider settings = JsString ""
  /\ truthy (optGet (optGet settings "smtp") "enabled") = false
  /\ truthy (optGet (optGet settings "resend") "enabled") = false.
Proof.
  unfold chosenProvider. rewrite !optGet_orElse_object. unfold orElse.
  destruct (truthy (optGet settings "emailProvider")) eqn:Hgiven;
    destruct (truthy (optGet (optGet settings "smtp") "enabled"));
    destruct (truthy (optGet (optGet settings "resend") "enabled"));
    repeat (cbn [andb negb]; rewrite ?Hgiven); try done; congruence.
Qed.

Lemma smtpWithAuthMethod_spec (settings : JsValue) :
  objectOrFalsy (optGet settings "smtp") ->
  (exists props, smtpWithAuthMethod settings = JsObject props)
  /\ truthy (optGet (smtpWithAuthMethod settings) "authMethod") = true
  /\ (truthy (optGet (optGet settings "smtp") "authMethod") = true ->
      optGet (smtpWithAuthMethod settings) "authMethod"
      = optGet (optGet settings "smtp") "authMethod")
  /\ (truthy (optGet (optGet settings "smtp") "authMethod") = false ->
      optGet (smtpWithAuthMethod settings) "authMethod" = JsString "PLAIN")
  /\ (forall k, k <> "authMethod" ->
        optGet (smtpWithAuthMethod settings) k
        = optGet (optGet settings "smtp") k).
Proof.
  intros Hsmtp. unfold smtpWithAuthMethod.
  rewrite optGet_orElse_object.
  assert (Hobj : exists props,
            orElse (optGet settings "smtp") (JsObject ∅) = JsObject props).
  { unfold orElse. destruct Hsmtp as [-> | [props ->]]; by eexists. }
  destruct Hobj as [props Hprops].
  assert (Hget : forall k,
            optGet (optGet settings "smtp") k = optGet (JsObject props) k).
  { intros k. by rewrite <- Hprops, optGet_orElse_object. }
  rewrite Hprops, !Hget.
  destruct (truthy (optGet (JsObject props) "authMethod")) eqn:Hauth.
  - split; [by eexists|]. repeat split; done.
  - cbn [set from_option id]. split; [by eexists|].
    rewrite !optGet_object, lookup_insert_eq. repeat split; try done.
    intros k Hk. by rewrite !optGet_object, lookup_insert_ne.
Qed.


Lemma chosenProvider_spec (settings : JsValue) :
  let given := optGet settings "emailProvider" in
  let smtpEnabled := optGet (optGet settings "smtp") "enabled" in
  let resendEnabled := optGet (optGet settings "resend") "enabled" in
  (truthy given = true -> chosenProvider settings = given)
  /\ (truthy given = false -> truthy smtpEnabled = true ->
      chosenProvider settings = JsString "smtp")
  /\ (truthy given = false -> truthy smtpEnabled = false ->
      truthy resendEnabled = true ->
      chosenProvider settings = JsString "resend")
  /\ (truthy given = false -> truthy smtpEnabled = false ->
      truthy resendEnabled = false ->
      chosenProvider settings = JsString "").
Proof.
  cbn zeta. unfold chosenProvider. rewrite !optGet_orElse_object.
  unfold orElse.
  destruct (truthy (optGet settings "emailProvider")) eqn:Hgiven;
    destruct (truthy (optGet (optGet settings "smtp") "enabled"));
    destruct (truthy (optGet (optGet settings "resend") "enabled"));
    repeat (cbn [andb negb truthy String.eqb]; rewrite ?Hgiven);
    repeat split; done.
Qed.

(** X11: for settings whose [smtp] entry is an object or is missing, [init]
    completes and settles the provider by precedence: the provider of the
    settings when there is one, else SMTP when its legacy [enabled] flag is
    set, else Resend when its flag is set, else none; the SMTP settings get
    the PLAIN authentication method when they have none and are otherwise
    kept as they are. *)
Theorem init_chooses_provider (settings : JsValue) (st : Page) :
  objectOrFalsy (optGet settings "smtp") ->
  exists st',
    init settings st = (Some tt, st')
    /\ let given := optGet settings "emailProvider" in
       let smtpEnabled := optGet (optGet settings "smtp") "enabled" in
       let resendEnabled := optGet (optGet settings "resend") "enabled" in
       let provider := optGet (formSettings st') "emailProvider" in
       let smtp := optGet (formSettings st') "smtp" in
       (truthy given = true -> provider = given)
       /\ (truthy given = false -> truthy smtpEnabled = true ->
           provider = JsString "smtp")
       /\ (truthy given = false -> truthy smtpEnabled = false ->
           truthy resendEnabled = true -> provider = JsString "resend")
       /\ (truthy given = false -> truthy smtpEnabled = false ->
           truthy resendEnabled = false -> provider = JsString "")
       /\ (truthy (optGet (optGet settings "smtp") "authMethod") = true ->
           optGet smtp "authMethod"
           = optGet (optGet settings "smtp") "authMethod")
       /\ (truthy (optGet (optGet settings "smtp") "authMethod") = false ->
           optGet smtp "authMethod" = JsString "PLAIN")
       /\ (forall k, k <> "authMethod" ->
             optGet smtp k = optGet (optGet settings "smtp") k).
Proof.
  intros Hsmtp. exists (initialised settings st).
  split; [by apply init_run|]. cbn zeta. unfold initialised.
  cbn [formSettings].
  destruct (optGet_formWith
              (orElse (optGet settings "meta") (JsObject ∅))
              (smtpWithAuthMethod settings)
              (orElse (optGet settings "resend") (JsObject ∅))
              (chosenProvider settings)) as (_ & -> & _ & ->).
  destruct (chosenProvider_spec settings) as (H1 & H2 & H3 & H4).
  destruct (smtpWithAuthMethod_spec settings Hsmtp) as (_ & _ & H5 & H6 & H7).
  done.
Qed.

(** X12: [init] is stable: run again on the form settings it produced, it
    leaves the whole page as it is. *)
Theorem init_stable (settings : JsValue) (st st' : Page) :
  objectOrFalsy (optGet settings "smtp") ->
  init settings st = (Some tt, st') ->
  init (formSettings st') st' = (Some tt, st').
Proof.
  intros Hsmtp Hinit. rewrite init_run in Hinit by done.
  injection Hinit as <-.
  destruct (smtpWithAuthMethod_spec settings Hsmtp)
    as ([props Hprops] & Hauth & _).
  set (meta0 := orElse (optGet settings "meta") (JsObject ∅)).
  set (resend0 := orElse (optGet settings "resend") (JsObject ∅)).
  set (form := formWith meta0 (smtpWithAuthMethod settings) resend0
                 (chosenProvider settings)).
  assert (Hform : formSettings (initialised settings st) = form) by done.
  rewrite Hform.
  destruct (optGet_formWith meta0 (smtpWithAuthMethod settings) resend0
              (chosenProvider settings)) as (Hm & Hs & Hr & Hp).
  fold form in Hm, Hs, Hr, Hp.
  rewrite init_run by (rewrite Hs, Hprops; right; by eexists).
  assert (Hmeta : orElse (optGet form "meta") (JsObject ∅) = meta0).
  { rewrite Hm. unfold orElse.
    assert (Ht : truthy meta0 = true) by (by apply truthy_orElse).
    by rewrite Ht. }
  assert (Hresend : orElse (optGet form "resend") (JsObject ∅) = resend0).
  { rewrite Hr. unfold orElse.
    assert (Ht : truthy resend0 = true) by (by apply truthy_orElse).
    by rewrite Ht. }
  assert (Hsmtp' : smtpWithAuthMethod form = smtpWithAuthMethod settings).
  { unfold smtpWithAuthMethod at 1. rewrite Hs.
    assert (Ht : orElse (smtpWithAuthMethod settings) (JsObject ∅)
                 = smtpWithAuthMethod settings).
    { unfold orElse. by rewrite Hprops. }
    by rewrite Ht, Hauth. }
  assert (Hprov : chosenProvider form = chosenProvider settings).
  { destruct (chosenProvider_spec form) as (H1 & H2 & H3 & H4).
    cbn zeta in H1, H2, H3, H4. rewrite ?Hp, ?Hs, ?Hr in H1, H2, H3, H4.
    destruct (truthy (chosenProvider settings)) eqn:Ht; [by apply H1|].
    destruct (chosenProvider_falsy settings Ht) as (Hempty & Hse & Hre).
    destruct (smtpWithAuthMethod_spec settings Hsmtp) as (_ & _ & _ & _ & Hk).
    rewrite Hempty. apply H4.
    - done.
    - by rewrite Hs, Hk.
    - rewrite Hr. unfold resend0. by rewrite optGet_orElse_object. }
  unfold initialised. rewrite Hmeta, Hresend, Hsmtp', Hprov. done.
Qed.

(** X13: the two flags that [save] writes follow the provider of the form:
    each is a boolean, at most one is true, nothing else is changed; and
    [init] reads them back to the same provider, so that the choice of the
    form survives saving and loading again. *)
Theorem syncEnabled_agrees_with_init
    (props smtpProps resendProps : gmap string JsValue) (provider : string)
    (st : Page) :
  props !! "smtp" = Some (JsObject smtpProps) ->
  props !! "resend" = Some (JsObject resendProps) ->
  props !! "emailProvider" = Some (JsString provider) ->
  exists synced st',
    syncEnabled (JsObject props) = Some synced
    /\ optGet (optGet synced "smtp") "enabled"
       = JsBool (String.eqb provider "smtp")
    /\ optGet (optGet synced "resend") "enabled"
       = JsBool (String.eqb provider "resend")
    /\ String.eqb provider "smtp" && String.eqb provider "resend" = false
    /\ (forall k, k <> "smtp" -> k <> "resend" ->
          optGet synced k = optGet (JsObject props) k)
    /\ (forall k, k <> "enabled" ->
          optGet (optGet synced "smtp") k = optGet (JsObject smtpProps) k
          /\ optGet (optGet synced "resend") k
             = optGet (JsObject resendProps) k)
    /\ init synced st = (Some tt, st')
    /\ optGet (formSettings st') "emailProvider" = JsString provider.
Proof.
  intros Hsmtp Hresend Hprovider.
  set (smtp' := JsObject (<["enabled" := JsBool (String.eqb provider "smtp")]>
                           smtpProps)).
  set (resend' :=
         JsObject (<["enabled" := JsBool (String.eqb provider "resend")]>
                     resendProps)).
  set (synced := JsObject (<["resend" := resend']> (<["smtp" := smtp']> props))).
  assert (Hsync : syncEnabled (JsObject props) = Some synced).
  { unfold syncEnabled. cbn [get]. rewrite Hsmtp, Hprovider.
    cbn [mbind option_bind from_option id set isString get].
    rewrite !lookup_insert_ne by done. rewrite Hresend, Hprovider.
    cbn [mbind option_bind from_option id set isString]. done. }
  assert (Hs : optGet synced "smtp" = smtp').
  { unfold synced. rewrite optGet_object, lookup_insert_ne by done.
    by rewrite lookup_insert_eq. }
  assert (Hr : optGet synced "resend" = resend').
  { unfold synced. by rewrite optGet_object, lookup_insert_eq. }
  assert (Hp : optGet synced "emailProvider" = JsString provider).
  { unfold synced. rewrite optGet_object, !lookup_insert_ne by done.
    by rewrite Hprovider. }
  assert (Hse : optGet smtp' "enabled" = JsBool (String.eqb provider "smtp")).
  { unfold smtp'. by rewrite optGet_object, lookup_insert_eq. }
  assert (Hre : optGet resend' "enabled"
                = JsBool (String.eqb provider "resend")).
  { unfold resend'. by rewrite optGet_object, lookup_insert_eq. }
  exists synced, (initialised synced st).
  split; [done|]. rewrite Hs, Hr. split; [done|]. split; [done|].
  split.
  { destruct (String.eqb_spec provider "smtp") as [->|]; done. }
  split.
  { intros k Hk1 Hk2. unfold synced.
    by rewrite !optGet_object, !lookup_insert_ne. }
  split.
  { intros k Hk. unfold smtp', resend'.
    by rewrite !optGet_object, !lookup_insert_ne. }
  split.
  { apply init_run. rewrite Hs. right. by eexists. }
  unfold initialised. cbn [formSettings].
  destruct (optGet_formWith
              (orElse (optGet synced "meta") (JsObject ∅))
              (smtpWithAuthMethod synced)
              (orElse (optGet synced "resend") (JsObject ∅))
              (chosenProvider synced)) as (_ & _ & _ & ->).
  destruct (chosenProvider_spec synced) as (H1 & _ & _ & H4).
  cbn zeta in H1, H4. rewrite Hp, Hs, Hr, Hse, Hre in *.
  destruct (String.eqb_spec provider "") as [->|Hne].
  - by apply H4.
  - apply H1. cbn. by apply negb_true_iff, String.eqb_neq.
Qed.

Lemma jsonCopy_formWith (meta smtp resend provider : JsValue) :
  meta <> JsUndefined -> smtp <> JsUndefined -> resend <> JsUndefined ->
  provider <> JsUndefined ->
  jsonCopy (formWith meta smtp resend provider)
  = formWith (jsonCopy meta) (jsonCopy smtp) (jsonCopy resend)
      (jsonCopy provider).
Proof.
  intros Hm Hs Hr Hp. unfold formWith. rewrite jsonCopy_object. f_equal.
  assert (Hcopied : forall x, x <> JsUndefined ->
                      copiedProp x = Some (jsonCopy x))
    by (by intros []).
  rewrite (omap_insert_Some _ _ _ _ _ (Hcopied meta Hm)).
  rewrite (omap_insert_Some _ _ _ _ _ (Hcopied smtp Hs)).
  rewrite (omap_insert_Some _ _ _ _ _ (Hcopied resend Hr)).
  rewrite (omap_insert_Some _ _ _ _ _ (Hcopied provider Hp)).
  by rewrite omap_empty.
Qed.

Lemma truthy_defined (v : JsValue) : truthy v = true -> v <> JsUndefined.
Proof. by destruct v. Qed.

Lemma chosenProvider_defined (settings : JsValue) :
  chosenProvider settings <> JsUndefined.
Proof.
  destruct (truthy (chosenProvider settings)) eqn:Ht.
  - by apply truthy_defined.
  - destruct (chosenProvider_falsy settings Ht) as [-> _]. done.
Qed.

Lemma isString_jsonCopy (v : JsValue) (s : string) :
  isString (jsonCopy v) s = isString v s.
Proof. by destruct v. Qed.

Lemma truthy_optGet_jsonCopy (v : JsValue) (k : string) :
  objectOrFalsy v \/ (exists props, v = JsObject props) ->
  truthy v = true ->
  truthy (optGet (jsonCopy v) k) = truthy (optGet v k).
Proof.
  intros [[Hf|[props ->]]|[props ->]] Ht; [congruence| |];
    apply optGet_jsonCopy_object.
Qed.

(** X14: after [init], whatever the form and the masks were changed to in
    between, [reset] puts the form back to the original settings that
    [init] kept and the two masks back to what [init] set them to; it
    leaves the other variables alone, and a second [reset] changes
    nothing. *)
Theorem reset_restores_init (settings : JsValue) (st0 st1 st2 : Page) :
  objectOrFalsy (optGet settings "smtp") ->
  objectOrFalsy (optGet settings "resend") ->
  init settings st0 = (Some tt, st1) ->
  originalFormSettings st2 = originalFormSettings st1 ->
  exists st3,
    reset st2 = (Some tt, st3)
    /\ formSettings st3 = originalFormSettings st1
    /\ originalFormSettings st3 = originalFormSettings st1
    /\ maskSmtpPassword st3 = maskSmtpPassword st1
    /\ maskResendApiKey st3 = maskResendApiKey st1
    /\ isLoading st3 = isLoading st2
    /\ isSaving st3 = isSaving st2
    /\ showMoreOptions st3 = showMoreOptions st2
    /\ reset st3 = (Some tt, st3).
Proof.
  intros Hsmtp Hresend Hinit Hedited.
  rewrite init_run in Hinit by done. injection Hinit as <-.
  destruct (smtpWithAuthMethod_spec settings Hsmtp) as ([props Hprops] & _).
  set (meta0 := orElse (optGet settings "meta") (JsObject ∅)).
  set (resend0 := orElse (optGet settings "resend") (JsObject ∅)).
  assert (Hmeta : truthy meta0 = true) by (by apply truthy_orElse).
  assert (Hres : truthy resend0 = true) by (by apply truthy_orElse).
  assert (Horiginal :
            originalFormSettings (initialised settings st0)
            = formWith (jsonCopy meta0)
                (jsonCopy (smtpWithAuthMethod settings)) (jsonCopy resend0)
                (jsonCopy (chosenProvider settings))).
  { unfold initialised. cbn [originalFormSettings].
    apply jsonCopy_formWith;
      [by apply truthy_defined | by rewrite Hprops | by apply truthy_defined
      | apply chosenProvider_defined]. }
  assert (Hcopy : jsonCopy (originalFormSettings (initialised settings st0))
                  = originalFormSettings (initialised settings st0)).
  { unfold initialised. cbn [originalFormSettings].
    apply jsonCopy_idempotent. }
  assert (Hmasks :
    truthy (optGet (jsonCopy (smtpWithAuthMethod settings)) "username")
    = maskSmtpPassword (initialised settings st0)
    /\ isString (jsonCopy (chosenProvider settings)) "resend"
       || truthy (optGet (jsonCopy resend0) "enabled")
       = maskResendApiKey (initialised settings st0)).
  { unfold initialised. cbn [maskSmtpPassword maskResendApiKey]. split.
    - rewrite Hprops. apply optGet_jsonCopy_object.
    - rewrite isString_jsonCopy. f_equal.
      fold resend0. unfold resend0, orElse.
      destruct Hresend as [Hf | [rprops Hr]].
      + rewrite Hf. apply optGet_jsonCopy_object.
      + rewrite Hr. cbn [truthy]. apply optGet_jsonCopy_object. }
  destruct Hmasks as [HmaskSmtp HmaskResend].
  assert (Hrun : forall st,
    originalFormSettings st = originalFormSettings (initialised settings st0) ->
    reset st =
      (Some tt,
       setMaskResendApiKey (maskResendApiKey (initialised settings st0))
         (setMaskSmtpPassword (maskSmtpPassword (initialised settings st0))
            (setFormSettings
               (originalFormSettings (initialised settings st0)) st)))).
  { intros st Hst. unfold reset. js_unfold. js_step. rewrite Hst.
    assert (Ht : truthy (originalFormSettings (initialised settings st0))
                 = true) by (by rewrite Horiginal).
    unfold orElse. rewrite Ht, Hcopy.
    rewrite Horiginal. js_step.
    by rewrite HmaskSmtp, HmaskResend. }
  eexists. split; [by apply Hrun|].
  repeat split; try done.
  rewrite Hrun by done. reflexivity.
Qed.

(** ** The statements on concrete settings *)

Lemma legacySettings_smtp : objectOrFalsy (optGet legacySettings "smtp").
Proof. right. eexists. vm_compute. reflexivity. Qed.

Lemma legacySettings_resend : objectOrFalsy (optGet legacySettings "resend").
Proof. right. eexists. vm_compute. reflexivity. Qed.

Lemma init_chooses_provider_witness :
  objectOrFalsy (optGet legacySettings "smtp")
  /\ truthy (optGet legacySettings "emailProvider") = false
  /\ truthy (optGet (optGet legacySettings "smtp") "enabled") = true
  /\ exists st',
       init legacySettings created = (Some tt, st')
       /\ optGet (formSettings st') "emailProvider" = JsString "smtp"
       /\ optGet (optGet (formSettings st') "smtp") "authMethod"
          = JsString "PLAIN".
Proof.
  split; [exact legacySettings_smtp|]. split; [reflexivity|].
  split; [reflexivity|].
  destruct (init_chooses_provider legacySettings created legacySettings_smtp)
    as (st' & Hinit & _ & Hsmtp & _ & _ & _ & Hplain & _).
  exists st'. split; [exact Hinit|]. split.
  - apply Hsmtp; reflexivity.
  - apply Hplain. reflexivity.
Defined.

Lemma init_stable_witness :
  exists st',
    objectOrFalsy (optGet legacySettings "smtp")
    /\ init legacySettings created = (Some tt, st')
    /\ init (formSettings st') st' = (Some tt, st').
Proof.
  let v := eval vm_compute in (snd (init legacySettings created)) in
  exists v.
  split; [exact legacySettings_smtp|].
  split; [vm_compute; reflexivity|].
  exact (init_stable legacySettings created _ legacySettings_smtp
           ltac:(vm_compute; reflexivity)).
Defined.

Lemma syncEnabled_agrees_with_init_witness :
  resendChosen !! "smtp" = Some (JsObject (<["enabled" := JsBool true]> ∅))
  /\ resendChosen !! "resend" = Some (JsObject ∅)
  /\ resendChosen !! "emailProvider" = Some (JsString "resend")
  /\ exists synced st',
       syncEnabled (JsObject resendChosen) = Some synced
       /\ optGet (optGet synced "smtp") "enabled" = JsBool false
       /\ optGet (optGet synced "resend") "enabled" = JsBool true
       /\ init synced created = (Some tt, st')
       /\ optGet (formSettings st') "emailProvider" = JsString "resend".
Proof.
  assert (Hs : resendChosen !! "smtp"
               = Some (JsObject (<["enabled" := JsBool true]> ∅)))
    by (vm_compute; reflexivity).
  assert (Hr : resendChosen !! "resend" = Some (JsObject ∅))
    by (vm_compute; reflexivity).
  assert (Hp : resendChosen !! "emailProvider" = Some (JsString "resend"))
    by (vm_compute; reflexivity).
  split; [exact Hs|]. split; [exact Hr|]. split; [exact Hp|].
  destruct (syncEnabled_agrees_with_init resendChosen _ _ "resend" created
              Hs Hr Hp)
    as (synced & st' & Hsync & Hse & Hre & _ & _ & _ & Hinit & Hprov).
  by exists synced, st'.
Defined.

Lemma reset_restores_init_witness :
  exists st1 st3,
    objectOrFalsy (optGet legacySettings "smtp")
    /\ objectOrFalsy (optGet legacySettings "resend")
    /\ init legacySettings created = (Some tt, st1)
    /\ maskSmtpPassword st1 = true
    /\ reset (setMaskSmtpPassword false (setFormSettings (JsObject ∅) st1))
       = (Some tt, st3)
    /\ formSettings st3 = originalFormSettings st1
    /\ maskSmtpPassword st3 = true
    /\ maskResendApiKey st3 = maskResendApiKey st1.
Proof.
  pose proof (init_run legacySettings created legacySettings_smtp) as Hinit.
  set (st1 := initialised legacySettings created) in *.
  assert (Hmask : maskSmtpPassword st1 = true)
    by (vm_compute; reflexivity).
  destruct (reset_restores_init legacySettings created st1
              (setMaskSmtpPassword false (setFormSettings (JsObject ∅) st1))
              legacySettings_smtp legacySettings_resend Hinit eq_refl)
    as (st3 & Hreset & Hform & _ & Hm1 & Hm2 & _).
  exists st1, st3.
  split; [exact legacySettings_smtp|]. split; [exact legacySettings_resend|].
  split; [exact Hinit|]. split; [exact Hmask|]. split; [exact Hreset|].
  split; [exact Hform|]. split; [by rewrite Hm1 | exact Hm2].
Defined.

End MailSettingsPageProperties.
